(** * CLIMADA: discount rates container and uncertainty / sensitivity engine

    A shallow embedding of

    - [climada/entity/disc_rates/base.py]  (class [DiscRates]) and
    - [climada/engine/uncertainty.py]      (classes [UncVar], [Uncertainty],
      [UncImpact])

    followed by the properties established about them.

    Python objects are mutable and methods may raise after having mutated
    [self]; methods are therefore written in a state-and-exception monad
    over the object.  Dictionaries are insertion ordered in Python and the
    order of their keys decides the column order of the sample, so they are
    association lists with Python's update discipline (an existing key keeps
    its position).  Numeric cells (numpy float64) are an abstract type: the
    code never computes with them itself, it only moves them between the
    external sampling, quantile, impact and analysis functions. *)

From Stdlib Require Import String Ascii List ZArith Bool Lia Arith.
From Stdlib Require Import DecimalString FinFun.
Import ListNotations.
Local Open Scope string_scope.
Local Open Scope list_scope.

Set Implicit Arguments.

(* ===================================================================== *)
(** * Part I. The model                                                   *)
(* ===================================================================== *)

(** ** Python base: exceptions, results, the object monad *)

Inductive Exception : Type :=
| ValueError (msg : string)
| AttributeError (attr : string)
| KeyError (key : string)
| TypeError (msg : string)
| IndexError (msg : string)
| ZeroDivisionError
| ExternalError (msg : string).

Inductive Result (A : Type) : Type :=
| Ok (a : A)
| Raise (e : Exception).
Arguments Ok {A} a.
Arguments Raise {A} e.

Definition is_ok {A} (r : Result A) : bool :=
  match r with Ok _ => true | Raise _ => false end.

Definition rbind {A B} (r : Result A) (k : A -> Result B) : Result B :=
  match r with Ok a => k a | Raise e => Raise e end.

(** A method of an object of state [S]: it receives the object, returns the
    (possibly mutated) object and either a value or the raised exception. *)
Definition M (S A : Type) : Type := S -> S * Result A.

Definition ret {S A} (a : A) : M S A := fun s => (s, Ok a).
Definition raise {S A} (e : Exception) : M S A := fun s => (s, Raise e).
Definition bind {S A B} (m : M S A) (k : A -> M S B) : M S B :=
  fun s => match m s with
           | (s', Ok a) => k a s'
           | (s', Raise e) => (s', Raise e)
           end.
Definition get {S} : M S S := fun s => (s, Ok s).
Definition modify {S} (f : S -> S) : M S unit := fun s => (f s, Ok tt).
Definition lift {S A} (r : Result A) : M S A := fun s => (s, r).

Declare Scope py_scope.
Delimit Scope py_scope with py.
Notation "x <- m ;; k" := (bind m (fun x => k))
  (at level 61, m at next level, right associativity) : py_scope.
Notation "m ;;; k" := (bind m (fun _ => k))
  (at level 61, right associativity) : py_scope.

(** Sequential [map] of a fallible function, as forced when the lazy [map] is
    unpacked and zipped: the first failing element raises. *)
Fixpoint mapM {A B} (f : A -> Result B) (xs : list A) : Result (list B) :=
  match xs with
  | [] => Ok []
  | x :: xs' =>
      match f x with
      | Raise e => Raise e
      | Ok y => match mapM f xs' with
                | Raise e => Raise e
                | Ok ys => Ok (y :: ys)
                end
      end
  end.

(** ** Insertion-ordered dictionaries *)

Class Eqb (K : Type) : Type := {
  eqb : K -> K -> bool;
  eqb_eq : forall x y, eqb x y = true <-> x = y
}.

#[export] Instance Eqb_string : Eqb string :=
  {| eqb := String.eqb; eqb_eq := String.eqb_eq |}.

#[export] Instance Eqb_Z : Eqb Z :=
  {| eqb := Z.eqb; eqb_eq := Z.eqb_eq |}.

Definition dict (K V : Type) : Type := list (K * V).

Fixpoint dict_get {K V} `{Eqb K} (k : K) (d : dict K V) : option V :=
  match d with
  | [] => None
  | (k', v) :: d' => if eqb k k' then Some v else dict_get k d'
  end.

(** [d[k] = v]: an existing key keeps its place, a new key goes last. *)
Fixpoint dict_set {K V} `{Eqb K} (k : K) (v : V) (d : dict K V) : dict K V :=
  match d with
  | [] => [(k, v)]
  | (k', v') :: d' =>
      if eqb k k' then (k', v) :: d' else (k', v') :: dict_set k v d'
  end.

(** [d.update(other)] *)
Definition dict_update {K V} `{Eqb K} (d other : dict K V) : dict K V :=
  fold_left (fun acc kv => dict_set (fst kv) (snd kv) acc) other d.

Definition keys {K V} (d : dict K V) : list K := map fst d.
Definition values {K V} (d : dict K V) : list V := map snd d.

(* --------------------------------------------------------------------- *)
(** ** climada/entity/disc_rates/base.py                                  *)
(* --------------------------------------------------------------------- *)

Module disc_rates.
Section Model.

(** [rate]: the numpy float64 cells of [rates];
    [Tag] and its [append]: [climada.entity.tag.Tag], an external
    collaborator. *)
Context {rate Tag : Type}.
Variable Tag_append : Tag -> Tag -> Tag.

(** [years] holds numpy integers; [array('l')] and [astype(int)] keep them
    as they are (64-bit on the platforms the package supports) and no
    arithmetic is done on them. *)
Record DiscRates : Type := {
  tag : Tag;
  years : list Z;
  rates : list rate
}.

(** Modelled from the spec: [climada.util.checker.size] is not among the
    sources; by the docstring of [check] ("Check attributes consistency.
    Raises: ValueError") it raises [ValueError] when the expected length
    differs from the length of the array. *)
Definition checker_size (exp_len : nat) (var : list rate) (var_name : string)
  : Result unit :=
  if Nat.eqb exp_len (length var) then Ok tt
  else Raise (ValueError ("Invalid " ++ var_name ++ " size")%string).

Definition check (self : DiscRates) : Result unit :=
  checker_size (length (years self)) (rates self) "DiscRates.rates".

(** [np.where(year == self.years)[0]]: the positions holding [year]. *)
Fixpoint np_where_eq (year : Z) (ys : list Z) (pos : nat) : list nat :=
  match ys with
  | [] => []
  | y :: ys' =>
      if Z.eqb year y then pos :: np_where_eq year ys' (S pos)
      else np_where_eq year ys' (S pos)
  end.

(** [arr[i] = v] on a numpy array: [IndexError] out of range. *)
Fixpoint setitem (rs : list rate) (i : nat) (v : rate) : Result (list rate) :=
  match rs, i with
  | [], _ => Raise (IndexError "index out of bounds")
  | _ :: rs', O => Ok (v :: rs')
  | r :: rs', S i' =>
      match setitem rs' i' v with
      | Ok rs'' => Ok (r :: rs'')
      | Raise e => Raise e
      end
  end.

(** The local state of the loop of [append]: [self.rates] (mutated in
    place), [new_year] and [new_rate]. *)
Record LoopState : Type := {
  cur_rates : list rate;
  new_year : list Z;
  new_rate : list rate
}.

(** [for year, rate in zip(disc_rates.years, disc_rates.rates): ...];
    [self.years] is not touched inside the loop. *)
Fixpoint append_loop (self_years : list Z) (items : list (Z * rate))
         (st : LoopState) : LoopState * Result unit :=
  match items with
  | [] => (st, Ok tt)
  | (year, r) :: items' =>
      match np_where_eq year self_years 0 with
      | found0 :: _ =>
          match setitem (cur_rates st) found0 r with
          | Ok rs =>
              append_loop self_years items'
                {| cur_rates := rs;
                   new_year := new_year st;
                   new_rate := new_rate st |}
          | Raise e => (st, Raise e)
          end
      | [] =>
          append_loop self_years items'
            {| cur_rates := cur_rates st;
               new_year := new_year st ++ [year];
               new_rate := new_rate st ++ [r] |}
      end
  end.

(** [DiscRates.append(self, disc_rates)] *)
Definition append (disc_rates : DiscRates) : M DiscRates unit :=
  fun self =>
    match check disc_rates with
    | Raise e => (self, Raise e)
    | Ok _ =>
        if Nat.eqb (length (years self)) 0 then
          (* self.__dict__ = disc_rates.__dict__.copy() *)
          (disc_rates, Ok tt)
        else
          let tag' := Tag_append (tag self) (tag disc_rates) in
          let st0 := {| cur_rates := rates self;
                        new_year := []; new_rate := [] |} in
          match append_loop (years self)
                            (combine (years disc_rates) (rates disc_rates))
                            st0 with
          | (st, Raise e) =>
              ({| tag := tag'; years := years self;
                  rates := cur_rates st |}, Raise e)
          | (st, Ok _) =>
              ({| tag := tag';
                  years := years self ++ new_year st;
                  rates := cur_rates st ++ new_rate st |}, Ok tt)
          end
    end.

End Model.
End disc_rates.

(* --------------------------------------------------------------------- *)
(** ** climada/engine/uncertainty.py                                      *)
(* --------------------------------------------------------------------- *)

Module uncertainty.

(** *** External collaborators: the types the engine moves around *)

Class Domain : Type := {
  (** numpy float64 cells and the missing-value marker pandas fills with *)
  float64 : Type;
  nan : float64;
  (** state of numpy's global random generator, which a design generator
      may consume when no seed is passed *)
  RandomState : Type;
  (** [climada.entity.Exposures], [climada.entity.ImpactFuncSet],
      [climada.hazard.Hazard] *)
  Exposures : Type;
  ImpactFuncSet : Type;
  Hazard : Type;
  (** a computed [climada.engine.Impact] *)
  Impact : Type
}.

(** Column labels of a [pd.DataFrame]: strings, or the integers of a
    default [RangeIndex]. *)
Inductive Label : Type :=
| LStr (s : string)
| LInt (n : nat).

Definition Label_eqb (a b : Label) : bool :=
  match a, b with
  | LStr s, LStr t => String.eqb s t
  | LInt n, LInt m => Nat.eqb n m
  | _, _ => false
  end.

Lemma Label_eqb_eq : forall a b, Label_eqb a b = true <-> a = b.
Proof.
  intros [s|n] [t|m]; simpl; split; intro E; try discriminate.
  - apply String.eqb_eq in E. now subst.
  - injection E as ->. apply String.eqb_refl.
  - apply Nat.eqb_eq in E. now subst.
  - injection E as ->. apply Nat.eqb_refl.
Qed.

#[export] Instance Eqb_Label : Eqb Label :=
  {| eqb := Label_eqb; eqb_eq := Label_eqb_eq |}.

(** Keyword options handed through to SALib ([**kwargs]). *)
Inductive PyArg : Type :=
| ArgNone
| ArgBool (b : bool)
| ArgInt (z : Z)
| ArgStr (s : string).

Definition Options : Type := dict string PyArg.

(** The [problem] dictionary of SALib. *)
Record Problem : Type := {
  num_vars : nat;
  names : list string;
  bounds : list (Z * Z)
}.

(** [str(n)] of a Python int. *)
Definition str (n : Z) : string := NilZero.string_of_int (Z.to_int n).

(** [getattr]: an attribute that was never assigned raises. *)
Definition getattr {A} (name : string) (o : option A) : Result A :=
  match o with
  | Some a => Ok a
  | None => Raise (AttributeError name)
  end.

Section Data.
Context `{Domain}.

Inductive PyObj : Type :=
| ObjExposures (e : Exposures)
| ObjImpactFuncSet (f : ImpactFuncSet)
| ObjHazard (h : Hazard).

(** A frozen [scipy.stats] distribution; only [ppf] is used outside of
    plotting. *)
Record Distribution : Type := { ppf : float64 -> float64 }.

(** *** pandas *)

Record DataFrame : Type := {
  columns : list Label;
  data : list (list float64)      (* the rows, in index order *)
}.

(** a row as yielded by [iterrows]: values indexed by the column labels *)
Definition Series : Type := dict Label float64.

(** [column.to_numpy()]: a vector for a uniquely labelled column, a
    matrix when several columns carry the label *)
Inductive ndarray : Type :=
| Vec (v : list float64)
| Mat (m : list (list float64)).

(** [pd.DataFrame()] *)
Definition DataFrame_empty : DataFrame := {| columns := []; data := [] |}.

(** [df.empty]: some axis has length 0 *)
Definition df_empty (df : DataFrame) : bool :=
  Nat.eqb (length (data df)) 0 || Nat.eqb (length (columns df)) 0.

(** [df.shape[0]] *)
Definition n_rows (df : DataFrame) : nat := length (data df).

(** [pd.DataFrame(matrix, columns=cols)] for a 2-d numpy array: the number
    of columns of the array must be the number of labels. *)
Definition DataFrame_of_matrix (m : list (list float64)) (cols : list Label)
  : Result DataFrame :=
  if forallb (fun r => Nat.eqb (length r) (length cols)) m
  then Ok {| columns := cols; data := m |}
  else Raise (ValueError "Shape of passed values does not match columns").

(** [pd.DataFrame(scalars, columns=[c])]: one cell per row. *)
Definition DataFrame_of_scalars (xs : list float64) (c : Label) : DataFrame :=
  {| columns := [c]; data := map (fun x => [x]) xs |}.

Definition pad_row (w : nat) (r : list float64) : list float64 :=
  r ++ repeat nan (w - length r).

Definition max_width (rows : list (list float64)) : nat :=
  fold_right (fun r w => Nat.max (length r) w) 0 rows.

(** [pd.DataFrame(rows)] / [pd.DataFrame(rows, columns=cols)] for a list of
    1-d arrays: shorter rows are filled with NaN up to the longest one;
    given labels must be as many as the width, default labels are
    [0 .. width-1]. *)
Definition DataFrame_of_rows (rows : list (list float64))
           (cols : option (list Label)) : Result DataFrame :=
  let w := max_width rows in
  match cols with
  | None =>
      Ok {| columns := map LInt (seq 0 w); data := map (pad_row w) rows |}
  | Some cs =>
      match rows with
      | [] => Ok {| columns := cs; data := [] |}
      | _ :: _ =>
          if Nat.eqb (length cs) w
          then Ok {| columns := cs; data := map (pad_row w) rows |}
          else Raise (ValueError "columns passed do not match the data")
      end
  end.

(** [df.iterrows()]: pairs of the row index and the row as a [Series]. *)
Definition iterrows (df : DataFrame) : list (nat * Series) :=
  combine (seq 0 (length (data df)))
          (map (fun r => combine (columns df) r) (data df)).

(** [row[labels].to_dict()]: [KeyError] when a label is not in the row. *)
Fixpoint series_select (row : Series) (labels : list string)
  : Result (dict string float64) :=
  match labels with
  | [] => Ok []
  | l :: ls =>
      match dict_get (LStr l) row with
      | None => Raise (KeyError l)
      | Some x =>
          match series_select row ls with
          | Raise e => Raise e
          | Ok d => Ok (dict_update [(l, x)] d)
          end
      end
  end.

(** the cells of one row under the columns labelled [c] *)
Fixpoint cells_at (c : Label) (cols : list Label) (row : list float64)
  : list float64 :=
  match cols, row with
  | l :: cols', x :: row' =>
      if eqb c l then x :: cells_at c cols' row' else cells_at c cols' row'
  | _, _ => []
  end.

(** [df[c].to_numpy()] *)
Definition getitem_to_numpy (df : DataFrame) (c : Label) : ndarray :=
  match filter (eqb c) (columns df) with
  | [_] => Vec (map (fun row => hd nan (cells_at c (columns df) row)) (data df))
  | _ => Mat (map (cells_at c (columns df)) (data df))
  end.

Fixpoint apply_cells (f : float64 -> float64) (c : Label)
         (cols : list Label) (row : list float64) : list float64 :=
  match cols, row with
  | l :: cols', x :: row' =>
      (if eqb c l then f x else x) :: apply_cells f c cols' row'
  | _, _ => row
  end.

(** [df[c] = df[c].apply(f)]: [f] elementwise on the column labelled [c]
    (the labels of a sample are dictionary keys, hence distinct). *)
Definition apply_column (f : float64 -> float64) (c : Label)
           (df : DataFrame) : DataFrame :=
  {| columns := columns df;
     data := map (apply_cells f c (columns df)) (data df) |}.

(** *** The record returned for one sample row by [_map_impact_eval]:
    [[imp.aai_agg, rp_curve, eai_exp, at_event]], the last two [None]
    when not requested. *)
Record Metrics : Type := {
  m_aai_agg : float64;
  m_rp_curve : list float64;
  m_eai_exp : option (list float64);
  m_at_event : option (list float64)
}.

(** A [pathos.pools.ProcessPool], owned by the caller: its number of
    nodes and its [map] method, called with the keyword options it is
    given. *)
Record Pool : Type := {
  ncpus : Z;
  pool_map : (nat * Series -> Result Metrics) -> list (nat * Series) ->
             Options -> Result (list Metrics)
}.

(** what [analyze] returns: index name to values *)
Definition SensitivityIndex : Type := dict string ndarray.

End Data.

(** *** External collaborators: the functions the engine calls *)

Class Libraries `{Domain} : Type := {
  (** [imp = Impact(); imp.calc(exposures, impact_funcs, hazard)] *)
  Impact_calc : PyObj -> PyObj -> PyObj -> Result Impact;
  Impact_aai_agg : Impact -> float64;
  (** [imp.calc_freq_curve(rp).impact] *)
  Impact_freq_curve : Impact -> list Z -> list float64;
  Impact_eai_exp : Impact -> list float64;
  Impact_at_event : Impact -> list float64;
  (** [getattr(SALib.sample, name).sample] *)
  sas : string ->
        option (Problem -> Z -> Options -> M RandomState (list (list float64)));
  (** [getattr(SALib.analyze, name)], whose [analyze] is called *)
  saa : string ->
        option (option Problem -> ndarray -> Options -> Result SensitivityIndex)
}.

Definition Analyzer `{Domain} : Type :=
  option Problem -> ndarray -> Options -> Result SensitivityIndex.

(** *** class UncVar *)

Module UncVar.
Section Class_.
Context `{Domain}.

Record t : Type := {
  labels : list string;
  distr_dict : dict string Distribution;
  unc_var : dict string float64 -> Result PyObj
}.

(** [UncVar.__init__(self, unc_var, distr_dict)] *)
Definition init (unc_var : dict string float64 -> Result PyObj)
           (distr_dict : dict string Distribution) : t :=
  {| labels := keys distr_dict;
     distr_dict := distr_dict;
     unc_var := unc_var |}.

(** [UncVar.eval_unc_var(self, kwargs)]: returns [self.unc_var] called
    with the entries of [kwargs] as keyword arguments *)
Definition eval_unc_var (self : t) (kwargs : dict string float64)
  : Result PyObj :=
  unc_var self kwargs.

End Class_.
End UncVar.

(** A value a caller may pass for a role of the impact computation: a
    concrete domain object or an uncertainty variable. *)
Inductive PyVal `{Domain} : Type :=
| VObj (o : PyObj)
| VUncVar (u : UncVar.t).

(** *** class Uncertainty *)

Module Uncertainty.
Section Class_.
Context `{Libraries}.

(** The attributes of an [Uncertainty] / [UncImpact] instance.  [None]
    in an optional field: the attribute has not been assigned.  [pool]
    is always assigned ([None] there is Python's [None]), and so are
    [params] and [problem] (its [None] is the empty dictionary). *)
Record Obj : Type := {
  unc_vars : option (dict string PyVal);
  pool : option Pool;
  params : DataFrame;
  problem : option Problem;
  sampling_method : option string;
  n_samples : option Z;
  rp : option (list Z);
  calc_eai_exp : option bool;
  calc_at_event : option bool;
  aai : option DataFrame;
  aai_agg : option DataFrame;
  freq_curve : option DataFrame;
  eai_exp : option DataFrame;
  at_event : option DataFrame;
  sensitivity : option (dict Label SensitivityIndex)
}.

Definition set_params v (o : Obj) : Obj :=
  Build_Obj (unc_vars o) (pool o) v (problem o) (sampling_method o)
    (n_samples o) (rp o) (calc_eai_exp o) (calc_at_event o) (aai o)
    (aai_agg o) (freq_curve o) (eai_exp o) (at_event o) (sensitivity o).
Definition set_problem v (o : Obj) : Obj :=
  Build_Obj (unc_vars o) (pool o) (params o) v (sampling_method o)
    (n_samples o) (rp o) (calc_eai_exp o) (calc_at_event o) (aai o)
    (aai_agg o) (freq_curve o) (eai_exp o) (at_event o) (sensitivity o).
Definition set_sampling_method v (o : Obj) : Obj :=
  Build_Obj (unc_vars o) (pool o) (params o) (problem o) v
    (n_samples o) (rp o) (calc_eai_exp o) (calc_at_event o) (aai o)
    (aai_agg o) (freq_curve o) (eai_exp o) (at_event o) (sensitivity o).
Definition set_n_samples v (o : Obj) : Obj :=
  Build_Obj (unc_vars o) (pool o) (params o) (problem o) (sampling_method o)
    v (rp o) (calc_eai_exp o) (calc_at_event o) (aai o)
    (aai_agg o) (freq_curve o) (eai_exp o) (at_event o) (sensitivity o).
Definition set_rp v (o : Obj) : Obj :=
  Build_Obj (unc_vars o) (pool o) (params o) (problem o) (sampling_method o)
    (n_samples o) v (calc_eai_exp o) (calc_at_event o) (aai o)
    (aai_agg o) (freq_curve o) (eai_exp o) (at_event o) (sensitivity o).
Definition set_calc_eai_exp v (o : Obj) : Obj :=
  Build_Obj (unc_vars o) (pool o) (params o) (problem o) (sampling_method o)
    (n_samples o) (rp o) v (calc_at_event o) (aai o)
    (aai_agg o) (freq_curve o) (eai_exp o) (at_event o) (sensitivity o).
Definition set_calc_at_event v (o : Obj) : Obj :=
  Build_Obj (unc_vars o) (pool o) (params o) (problem o) (sampling_method o)
    (n_samples o) (rp o) (calc_eai_exp o) v (aai o)
    (aai_agg o) (freq_curve o) (eai_exp o) (at_event o) (sensitivity o).
Definition set_aai_agg v (o : Obj) : Obj :=
  Build_Obj (unc_vars o) (pool o) (params o) (problem o) (sampling_method o)
    (n_samples o) (rp o) (calc_eai_exp o) (calc_at_event o) (aai o)
    v (freq_curve o) (eai_exp o) (at_event o) (sensitivity o).
Definition set_freq_curve v (o : Obj) : Obj :=
  Build_Obj (unc_vars o) (pool o) (params o) (problem o) (sampling_method o)
    (n_samples o) (rp o) (calc_eai_exp o) (calc_at_event o) (aai o)
    (aai_agg o) v (eai_exp o) (at_event o) (sensitivity o).
Definition set_eai_exp v (o : Obj) : Obj :=
  Build_Obj (unc_vars o) (pool o) (params o) (problem o) (sampling_method o)
    (n_samples o) (rp o) (calc_eai_exp o) (calc_at_event o) (aai o)
    (aai_agg o) (freq_curve o) v (at_event o) (sensitivity o).
Definition set_at_event v (o : Obj) : Obj :=
  Build_Obj (unc_vars o) (pool o) (params o) (problem o) (sampling_method o)
    (n_samples o) (rp o) (calc_eai_exp o) (calc_at_event o) (aai o)
    (aai_agg o) (freq_curve o) (eai_exp o) v (sensitivity o).
Definition set_sensitivity v (o : Obj) : Obj :=
  Build_Obj (unc_vars o) (pool o) (params o) (problem o) (sampling_method o)
    (n_samples o) (rp o) (calc_eai_exp o) (calc_at_event o) (aai o)
    (aai_agg o) (freq_curve o) (eai_exp o) (at_event o) v.

(** [Uncertainty.__init__(self, unc_vars=None, pool=None)].
    [if unc_vars: self.unc_vars = {}]: a non-empty mapping is truthy;
    a pool object is truthy, so [self.pool] is the argument either way. *)
Definition init (unc_vars_arg : option (dict string PyVal))
           (pool_arg : option Pool) : Obj :=
  {| unc_vars := match unc_vars_arg with
                 | Some (_ :: _) => Some []
                 | _ => None
                 end;
     pool := pool_arg;
     params := DataFrame_empty;
     problem := None;
     sampling_method := None; n_samples := None; rp := None;
     calc_eai_exp := None; calc_at_event := None;
     aai := None; aai_agg := None; freq_curve := None;
     eai_exp := None; at_event := None; sensitivity := None |}.

(** property [n_runs] ([self.params] is always a DataFrame here) *)
Definition n_runs (self : Obj) : nat := n_rows (params self).

(** the loop of property [distr_dict]:
    [for unc_var in self.unc_vars.values():
         distr_dict.update(unc_var.distr_dict)] *)
Fixpoint merge_distr (vs : list PyVal) (acc : dict string Distribution)
  : Result (dict string Distribution) :=
  match vs with
  | [] => Ok acc
  | VUncVar u :: vs' => merge_distr vs' (dict_update acc (UncVar.distr_dict u))
  | VObj _ :: _ => Raise (AttributeError "distr_dict")
  end.

(** property [distr_dict] *)
Definition distr_dict (self : Obj) : Result (dict string Distribution) :=
  rbind (getattr "unc_vars" (unc_vars self))
        (fun uvs => merge_distr (values uvs) []).

(** property [param_labels] *)
Definition param_labels (self : Obj) : Result (list string) :=
  rbind (distr_dict self) (fun d => Ok (keys d)).

(** A method of the object that may also consume numpy's random state. *)
Definition World : Type := (Obj * RandomState)%type.

Definition on_self {A} (m : M Obj A) : M World A :=
  fun w => let '(o, r) := m (fst w) in ((o, snd w), r).
Definition on_random {A} (m : M RandomState A) : M World A :=
  fun w => let '(g, r) := m (snd w) in ((fst w, g), r).
Definition reading {A} (f : Obj -> Result A) : M Obj A :=
  fun o => (o, f o).

Local Open Scope py_scope.

(** [Uncertainty._make_uniform_base_sample(self, **kwargs)] *)
Definition _make_uniform_base_sample (kwargs : Options)
  : M World (list (list float64)) :=
  labels <- on_self (reading param_labels) ;;
  let problem_ := {| num_vars := length labels;
                     names := labels;
                     bounds := repeat (0, 1)%Z (length labels) |} in
  on_self (modify (set_problem (Some problem_))) ;;;
  method <- on_self (reading (fun o =>
              getattr "sampling_method" (sampling_method o))) ;;
  sampler <- lift (match sas method with
                   | Some s => Ok s
                   | None => Raise (AttributeError method)
                   end) ;;
  N <- on_self (reading (fun o => getattr "n_samples" (n_samples o))) ;;
  on_random (sampler problem_ N kwargs).

(** the loop of [make_sample]:
    [for param in list(df_params):
         df_params[param] = df_params[param].apply(self.distr_dict[param].ppf)] *)
Fixpoint quantile_columns (self : Obj) (todo : list Label) (df : DataFrame)
  : Result DataFrame :=
  match todo with
  | [] => Ok df
  | param :: todo' =>
      match distr_dict self with
      | Raise e => Raise e
      | Ok dd =>
          match param with
          | LStr s =>
              match dict_get s dd with
              | None => Raise (KeyError s)
              | Some distr =>
                  quantile_columns self todo' (apply_column (ppf distr) param df)
              end
          | LInt n => Raise (KeyError (str (Z.of_nat n)))
          end
      end
  end.

(** [Uncertainty.make_sample(self, N, sampling_method='saltelli', **kwargs)] *)
Definition make_sample (N : Z) (sampling_method_ : string) (kwargs : Options)
  : M World unit :=
  on_self (modify (set_sampling_method (Some sampling_method_))) ;;;
  on_self (modify (set_n_samples (Some N))) ;;;
  uniform_base_sample <- _make_uniform_base_sample kwargs ;;
  labels <- on_self (reading param_labels) ;;
  df_params <- lift (DataFrame_of_matrix uniform_base_sample (map LStr labels)) ;;
  df_params <- on_self (reading (fun self =>
                 quantile_columns self (columns df_params) df_params)) ;;
  on_self (modify (set_params df_params)).

(** the loop of [_calc_metric_sensitivity]:
    [for metric in df_metric:
         Y = df_metric[metric].to_numpy()
         sensitivity_index = analysis_method.analyze(self.problem, Y, **kwargs)
         sensitivity_dict.update({metric: sensitivity_index})] *)
Fixpoint sensitivity_loop (self : Obj) (df_metric : DataFrame)
         (analysis_method : Analyzer) (kwargs : Options)
         (todo : list Label) (sensitivity_dict : dict Label SensitivityIndex)
  : Result (dict Label SensitivityIndex) :=
  match todo with
  | [] => Ok sensitivity_dict
  | metric :: todo' =>
      let Y := getitem_to_numpy df_metric metric in
      match analysis_method (problem self) Y kwargs with
      | Raise e => Raise e
      | Ok sensitivity_index =>
          sensitivity_loop self df_metric analysis_method kwargs todo'
            (dict_update sensitivity_dict [(metric, sensitivity_index)])
      end
  end.

(** [Uncertainty._calc_metric_sensitivity(self, df_metric, analysis_method,
    **kwargs)] *)
Definition _calc_metric_sensitivity (self : Obj) (df_metric : DataFrame)
           (analysis_method : Analyzer) (kwargs : Options)
  : Result (dict Label SensitivityIndex) :=
  sensitivity_loop self df_metric analysis_method kwargs (columns df_metric) [].

End Class_.
End Uncertainty.

(** *** class UncImpact(Uncertainty) *)

Module UncImpact.
Import Uncertainty.
Section Class_.
Context `{Libraries}.

(** [lambda: x], called with the entries of [kwargs] as keyword
    arguments: it accepts none. *)
Definition lambda_const (x : PyObj) (kwargs : dict string float64)
  : Result PyObj :=
  match kwargs with
  | [] => Ok x
  | _ :: _ =>
      Raise (TypeError "<lambda>() got an unexpected keyword argument")
  end.

(** [UncImpact.__init__(self, exp_unc, impf_unc, haz_unc, pool=None)];
    each [isinstance] test is the match on the class of the argument. *)
Definition init (exp_unc impf_unc haz_unc : PyVal) (pool_arg : option Pool)
  : Obj :=
  let unc_vars0 : dict string PyVal := [] in
  let unc_vars1 :=
    match exp_unc with
    | VObj (ObjExposures _ as o) =>
        dict_update unc_vars0
          [("exp", VUncVar (UncVar.init (lambda_const o) []))]
    | _ => dict_update unc_vars0 [("exp", exp_unc)]
    end in
  let unc_vars2 :=
    match impf_unc with
    | VObj (ObjImpactFuncSet _ as o) =>
        dict_update unc_vars1
          [("impf", VUncVar (UncVar.init (lambda_const o) []))]
    | _ => dict_update unc_vars1 [("impf", impf_unc)]
    end in
  let unc_vars3 :=
    match haz_unc with
    | VObj (ObjHazard _ as o) =>
        dict_update unc_vars2
          [("haz", VUncVar (UncVar.init (lambda_const o) []))]
    | _ => dict_update unc_vars2 [("haz", haz_unc)]
    end in
  {| unc_vars := Some unc_vars3;
     pool := pool_arg;
     params := DataFrame_empty;
     problem := None;
     sampling_method := None; n_samples := None; rp := None;
     calc_eai_exp := None; calc_at_event := None;
     aai := Some DataFrame_empty;
     aai_agg := None;
     freq_curve := Some DataFrame_empty;
     eai_exp := Some DataFrame_empty;
     at_event := Some DataFrame_empty;
     sensitivity := None |}.

(** [self.unc_vars[role]], which must then offer [labels] and
    [eval_unc_var] *)
Definition role_var (self : Obj) (role : string) : Result UncVar.t :=
  rbind (getattr "unc_vars" (unc_vars self)) (fun uvs =>
    match dict_get role uvs with
    | None => Raise (KeyError role)
    | Some (VUncVar u) => Ok u
    | Some (VObj _) => Raise (AttributeError "labels")
    end).

(** [UncImpact._map_impact_eval(self, param_sample)]; it reads [self]
    and does not assign to it. *)
Definition _map_impact_eval (self : Obj) (param_sample : nat * Series)
  : Result Metrics :=
  let row := snd param_sample in
  rbind (role_var self "exp") (fun exp_var =>
  rbind (series_select row (UncVar.labels exp_var)) (fun exp_params =>
  rbind (role_var self "haz") (fun haz_var =>
  rbind (series_select row (UncVar.labels haz_var)) (fun haz_params =>
  rbind (role_var self "impf") (fun impf_var =>
  rbind (series_select row (UncVar.labels impf_var)) (fun impf_params =>
  rbind (UncVar.eval_unc_var exp_var exp_params) (fun exp =>
  rbind (UncVar.eval_unc_var haz_var haz_params) (fun haz =>
  rbind (UncVar.eval_unc_var impf_var impf_params) (fun impf =>
  rbind (Impact_calc exp impf haz) (fun imp =>
  rbind (getattr "rp" (rp self)) (fun rp_ =>
  let rp_curve := Impact_freq_curve imp rp_ in
  rbind (getattr "calc_eai_exp" (calc_eai_exp self)) (fun want_eai_exp =>
  let eai_exp_ := if want_eai_exp then Some (Impact_eai_exp imp) else None in
  rbind (getattr "calc_at_event" (calc_at_event self)) (fun want_at_event =>
  let at_event_ := if want_at_event then Some (Impact_at_event imp) else None in
  Ok {| m_aai_agg := Impact_aai_agg imp;
        m_rp_curve := rp_curve;
        m_eai_exp := eai_exp_;
        m_at_event := at_event_ |}))))))))))))).

(** a cell that holds [None] instead of an array makes a single null
    entry *)
Definition optional_row (o : option (list float64)) : list float64 :=
  match o with Some v => v | None => [nan] end.

Local Open Scope py_scope.

(** [UncImpact.calc_impact_distribution(self, rp=None, calc_eai_exp=False,
    calc_at_event=False)] *)
Definition calc_impact_distribution (rp_arg : option (list Z))
           (calc_eai_exp_ calc_at_event_ : bool) : M Obj unit :=
  let rp_ := match rp_arg with
             | None => [5; 10; 20; 50; 100; 250]%Z
             | Some l => l
             end in
  modify (set_rp (Some rp_)) ;;;
  modify (set_calc_eai_exp (Some calc_eai_exp_)) ;;;
  modify (set_calc_at_event (Some calc_at_event_)) ;;;
  self <- get ;;
  impact_metrics <-
    lift (match pool self with
          | Some p =>
              if Z.eqb (ncpus p) 0 then Raise ZeroDivisionError
              else
                let chunksize :=
                  Z.min (Z.of_nat (n_runs self) / ncpus p) 100 in
                pool_map p (_map_impact_eval self) (iterrows (params self))
                         [("chunsize", ArgInt chunksize)]
          | None => mapM (_map_impact_eval self) (iterrows (params self))
          end) ;;
  (* [a, f, e, t] = list(zip( *impact_metrics)): nothing to unpack
     when there is no row *)
  match impact_metrics with
  | [] => raise (ValueError "not enough values to unpack (expected 4, got 0)")
  | _ :: _ =>
      let aai_agg_list := map m_aai_agg impact_metrics in
      let freq_curve_list := map m_rp_curve impact_metrics in
      let eai_exp_list := map m_eai_exp impact_metrics in
      let at_event_list := map m_at_event impact_metrics in
      modify (set_aai_agg
                (Some (DataFrame_of_scalars aai_agg_list (LStr "aai_agg")))) ;;;
      df_freq_curve <-
        lift (DataFrame_of_rows freq_curve_list
                (Some (map (fun n => LStr ("rp" ++ str n)%string) rp_))) ;;
      modify (set_freq_curve (Some df_freq_curve)) ;;;
      (if calc_eai_exp_ then
         df_eai_exp <-
           lift (DataFrame_of_rows (map optional_row eai_exp_list) None) ;;
         modify (set_eai_exp (Some df_eai_exp))
       else ret tt) ;;;
      (if calc_at_event_ then
         df_at_event <-
           lift (DataFrame_of_rows (map optional_row at_event_list) None) ;;
         modify (set_at_event (Some df_at_event))
       else ret tt)
  end.

Definition update_with (acc : dict Label SensitivityIndex) (self : Obj)
           (attr_name : string) (df : option DataFrame)
           (analysis_method : Analyzer) (kwargs : Options)
  : Result (dict Label SensitivityIndex) :=
  rbind (getattr attr_name df) (fun df_metric =>
  rbind (_calc_metric_sensitivity self df_metric analysis_method kwargs)
        (fun sens => Ok (dict_update acc sens))).

(** [UncImpact.calc_impact_sensitivity(self, method='sobol', **kwargs)] *)
Definition calc_impact_sensitivity (method : string) (kwargs : Options)
  : M Obj (dict Label SensitivityIndex) :=
  self <- get ;;
  if df_empty (params self) then
    raise (ValueError
      "I found no samples. Please produce first samples using Uncertainty.make_sample().")
  else
    aai_agg_ <- lift (getattr "aai_agg" (aai_agg self)) ;;
    if df_empty aai_agg_ then
      raise (ValueError
        "I found no impact data. Please compute the impact distribution first using Uncertainty.calc_impact_distribution()")
    else
      analysis_method <- lift (match saa method with
                               | Some a => Ok a
                               | None => Raise (AttributeError method)
                               end) ;;
      let sensitivity_analysis : dict Label SensitivityIndex := [] in
      sensitivity_analysis <-
        lift (update_with sensitivity_analysis self "aai_agg"
                (aai_agg self) analysis_method kwargs) ;;
      sensitivity_analysis <-
        lift (update_with sensitivity_analysis self "freq_curve"
                (freq_curve self) analysis_method kwargs) ;;
      want_eai_exp <- lift (getattr "calc_eai_exp" (calc_eai_exp self)) ;;
      sensitivity_analysis <-
        (if want_eai_exp : bool then
           lift (update_with sensitivity_analysis self "eai_exp"
                   (eai_exp self) analysis_method kwargs)
         else ret sensitivity_analysis) ;;
      want_at_event <- lift (getattr "calc_at_event" (calc_at_event self)) ;;
      sensitivity_analysis <-
        (if want_at_event : bool then
           lift (update_with sensitivity_analysis self "at_event"
                   (at_event self) analysis_method kwargs)
         else ret sensitivity_analysis) ;;
      modify (set_sensitivity (Some sensitivity_analysis)) ;;;
      ret sensitivity_analysis.

End Class_.
End UncImpact.

End uncertainty.

(* --------------------------------------------------------------------- *)
(** ** Concrete collaborators used to exercise the model                  *)
(* --------------------------------------------------------------------- *)

Module demo.
Import uncertainty.

(** Integer cells, a counter as random state, integer payloads. *)
Definition D : Domain :=
  {| float64 := Z; nan := 0%Z; RandomState := Z;
     Exposures := Z; ImpactFuncSet := Z; Hazard := Z; Impact := Z |}.

#[local] Existing Instance D.

(** Calling a Python function [def f(required..., name=default...)] with
    keyword arguments: an unexpected or a missing name is a [TypeError],
    otherwise the body runs on the bound parameters. *)
Definition py_function (required : list string) (defaults : dict string Z)
           (body : dict string Z -> Result (@PyObj D))
           (kwargs : dict string Z) : Result (@PyObj D) :=
  let params_ := required ++ keys defaults in
  if negb (forallb (fun k => existsb (String.eqb k) params_) (keys kwargs))
  then Raise (TypeError "got an unexpected keyword argument")
  else if negb (forallb (fun k => existsb (String.eqb k) (keys kwargs)) required)
  then Raise (TypeError "missing required argument")
  else body (dict_update defaults kwargs).

Definition arg (name : string) (bound : dict string Z) : Z :=
  match dict_get name bound with Some v => v | None => 0%Z end.

(** the shape of the docstring's [imp_fun_tc(G, v_half, vmin, k, _id=1)]:
    a required parameter with a distribution and a defaulted one without *)
Definition imp_fun_tc : dict string Z -> Result (@PyObj D) :=
  py_function ["G"] [("_id", 1%Z)]
    (fun b => Ok (ObjImpactFuncSet (arg "G" b + arg "_id" b)%Z)).

Definition impf_var : UncVar.t :=
  UncVar.init imp_fun_tc [("G", {| ppf := fun x => (x + 100)%Z |})].

(** an exposure generator [def exp_gen(a, b)] with two parameters *)
Definition exp_gen : dict string Z -> Result (@PyObj D) :=
  py_function ["a"; "b"] []
    (fun b => Ok (ObjExposures (arg "a" b + arg "b" b)%Z)).

Definition exp_var : UncVar.t :=
  UncVar.init exp_gen [("a", {| ppf := fun x => x |});
                       ("b", {| ppf := fun x => (5 * x)%Z |})].

(** a rectangular design: row [k] holds [start + k + j] in column [j] *)
Definition grid (start : Z) (n p : nat) : list (list Z) :=
  map (fun k => map (fun j => (start + Z.of_nat k + Z.of_nat j)%Z) (seq 0 p))
      (seq 0 n).

(** a deterministic design and one that draws from the random state
    unless it is given a seed *)
Definition saltelli_sample (pb : Problem) (N : Z) (kw : Options)
  : M Z (list (list Z)) :=
  fun g => (g, Ok (grid 0 (Z.to_nat N) (num_vars pb))).

Definition latin_sample (pb : Problem) (N : Z) (kw : Options)
  : M Z (list (list Z)) :=
  fun g => match dict_get "seed" kw with
           | Some (ArgInt s) => (g, Ok (grid s (Z.to_nat N) (num_vars pb)))
           | _ => ((g + 1)%Z, Ok (grid g (Z.to_nat N) (num_vars pb)))
           end.

(** an analysis that reports a negative first-order index *)
Definition sobol_analyze (pb : option Problem) (Y : @ndarray D) (kw : Options)
  : Result (@SensitivityIndex D) :=
  Ok [("S1", Vec [(-1)%Z]); ("ST", Y)].

Definition L : Libraries :=
  {| Impact_calc := fun e f h =>
       match e, f, h with
       | ObjExposures a, ObjImpactFuncSet b, ObjHazard c => Ok (a + b + c)%Z
       | _, _, _ => Raise (ExternalError "Impact.calc")
       end;
     Impact_aai_agg := fun i => i;
     Impact_freq_curve := fun i rp_ => map (fun r => (i * r)%Z) rp_;
     Impact_eai_exp := fun i => [i; (i + 1)%Z];
     Impact_at_event := fun i => [i];
     sas := fun name =>
       if String.eqb name "saltelli" then Some saltelli_sample
       else if String.eqb name "latin" then Some latin_sample
       else None;
     saa := fun name =>
       if String.eqb name "sobol" then Some sobol_analyze else None |}.

#[local] Existing Instance L.


(** an analysis set up with an uncertain exposure and fixed impact
    functions and hazard *)
Definition unc0 : Uncertainty.Obj :=
  UncImpact.init (VUncVar exp_var) (VObj (ObjImpactFuncSet 10%Z))
                 (VObj (ObjHazard 20%Z)) None.

(** ... after [make_sample(2)] from random state 0 *)
Definition unc1 : Uncertainty.Obj :=
  fst (fst (Uncertainty.make_sample 2%Z "saltelli" [] (unc0, 0%Z))).

(** ... after [calc_impact_distribution(rp=[5, 10], calc_eai_exp=True)] *)
Definition unc2 : Uncertainty.Obj :=
  fst (UncImpact.calc_impact_distribution (Some [5; 10]%Z) true false unc1).

End demo.

(* ===================================================================== *)
(** * Part II. Properties                                                 *)
(* ===================================================================== *)

Unset Implicit Arguments.

(** ** Generic facts: results, [mapM], dictionaries *)

Lemma mapM_length {A B} (f : A -> Result B) xs ys :
  mapM f xs = Ok ys -> length ys = length xs.
Proof.
  revert ys; induction xs as [|x xs IH]; simpl; intros ys E.
  - injection E as <-. reflexivity.
  - destruct (f x); [|discriminate].
    destruct (mapM f xs); [|discriminate].
    injection E as <-. simpl. f_equal. now apply IH.
Qed.



Lemma mapM_ext {A B} (f g : A -> Result B) xs :
  (forall x, f x = g x) -> mapM f xs = mapM g xs.
Proof.
  intros E; induction xs as [|x xs IH]; simpl; [reflexivity|].
  now rewrite E, IH.
Qed.

Lemma eqb_refl {K} `{Eqb K} (k : K) : eqb k k = true.
Proof. now apply eqb_eq. Qed.

Lemma eqb_neq {K} `{Eqb K} (k k' : K) : k <> k' -> eqb k k' = false.
Proof.
  intros N. destruct (eqb k k') eqn:E; [|reflexivity].
  apply eqb_eq in E. contradiction.
Qed.

Lemma eqb_false {K} `{Eqb K} (k k' : K) : eqb k k' = false -> k <> k'.
Proof.
  intros E ->. rewrite eqb_refl in E. discriminate.
Qed.

Lemma dict_get_None {K V} `{Eqb K} (k : K) (d : dict K V) :
  dict_get k d = None <-> ~ In k (keys d).
Proof.
  induction d as [|[k' v] d IH]; simpl.
  - tauto.
  - destruct (eqb k k') eqn:E.
    + apply eqb_eq in E. subst. split; [discriminate|tauto].
    + apply eqb_false in E. rewrite IH. intuition congruence.
Qed.

Lemma dict_get_In {K V} `{Eqb K} (k : K) (d : dict K V) :
  In k (keys d) -> exists v, dict_get k d = Some v.
Proof.
  intros I. destruct (dict_get k d) eqn:E; [eauto|].
  apply dict_get_None in E. contradiction.
Qed.

Lemma keys_dict_set_In {K V} `{Eqb K} (k : K) (v : V) d :
  In k (keys d) -> keys (dict_set k v d) = keys d.
Proof.
  induction d as [|[k' v'] d IH]; simpl; [tauto|].
  intros I. destruct (eqb k k') eqn:E; simpl; [reflexivity|].
  f_equal. apply IH. destruct I as [I|I]; [|assumption].
  subst. rewrite eqb_refl in E. discriminate.
Qed.

Lemma keys_dict_set_notin {K V} `{Eqb K} (k : K) (v : V) d :
  ~ In k (keys d) -> keys (dict_set k v d) = keys d ++ [k].
Proof.
  induction d as [|[k' v'] d IH]; simpl; [reflexivity|].
  intros N. destruct (eqb k k') eqn:E.
  - apply eqb_eq in E. subst. tauto.
  - simpl. f_equal. apply IH. tauto.
Qed.

Lemma NoDup_snoc {A} (l : list A) (a : A) :
  NoDup l -> ~ In a l -> NoDup (l ++ [a]).
Proof.
  induction l as [|b l IH]; simpl; intros ND N.
  - constructor; [tauto|constructor].
  - inversion ND as [|? ? Nb NDl]; subst. constructor.
    + rewrite in_app_iff. simpl. intros [Q|[Q|[]]]; [tauto|]. subst. tauto.
    + apply IH; tauto.
Qed.

Lemma dict_get_Some_In {K V} `{Eqb K} (k : K) (d : dict K V) v :
  dict_get k d = Some v -> In k (keys d).
Proof.
  induction d as [|[k' v'] d IH]; simpl; [discriminate|].
  destruct (eqb k k') eqn:E; [|auto].
  apply eqb_eq in E. auto.
Qed.

Lemma keys_dict_set_NoDup {K V} `{Eqb K} (k : K) (v : V) d :
  NoDup (keys d) -> NoDup (keys (dict_set k v d)).
Proof.
  intros ND. destruct (dict_get k d) eqn:E.
  - apply dict_get_Some_In in E. now rewrite keys_dict_set_In.
  - apply dict_get_None in E. rewrite keys_dict_set_notin by assumption.
    now apply NoDup_snoc.
Qed.

Lemma keys_dict_update_NoDup {K V} `{Eqb K} (d other : dict K V) :
  NoDup (keys d) -> NoDup (keys (dict_update d other)).
Proof.
  unfold dict_update. revert d.
  induction other as [|[k v] other IH]; simpl; intros d ND; [assumption|].
  apply IH. now apply keys_dict_set_NoDup.
Qed.

Lemma dict_get_set_same {K V} `{Eqb K} (k : K) (v : V) d :
  dict_get k (dict_set k v d) = Some v.
Proof.
  induction d as [|[k' v'] d IH]; simpl.
  - now rewrite eqb_refl.
  - destruct (eqb k k') eqn:E; simpl; rewrite E; [reflexivity|assumption].
Qed.

Lemma dict_get_set_other {K V} `{Eqb K} (k k0 : K) (v : V) d :
  k0 <> k -> dict_get k0 (dict_set k v d) = dict_get k0 d.
Proof.
  intros N. induction d as [|[k' v'] d IH]; simpl.
  - now rewrite eqb_neq.
  - destruct (eqb k k') eqn:E; simpl.
    + apply eqb_eq in E. subst k'. now rewrite eqb_neq.
    + now rewrite IH.
Qed.

(** ** DiscRates.append *)

Section DiscRatesProps.
Import disc_rates.
Context {rate Tag : Type}.
Variable Tag_append : Tag -> Tag -> Tag.

(** [year] occurs in [ys] *)
Definition known (ys : list Z) (year : Z) : bool := existsb (Z.eqb year) ys.

(** the rate that the last entry for [year] in [items] carries *)
Fixpoint last_rate (year : Z) (items : list (Z * rate)) : option rate :=
  match items with
  | [] => None
  | (y, r) :: items' =>
      match last_rate year items' with
      | Some r' => Some r'
      | None => if Z.eqb year y then Some r else None
      end
  end.

Lemma known_In ys y : known ys y = true <-> In y ys.
Proof.
  unfold known. rewrite existsb_exists. split.
  - intros (x & I & E). apply Z.eqb_eq in E. now subst.
  - intros I. exists y. split; [assumption|apply Z.eqb_refl].
Qed.

Lemma known_false ys y : known ys y = false <-> ~ In y ys.
Proof.
  rewrite <- known_In. destruct (known ys y); split; congruence.
Qed.


Lemma np_where_eq_nil y ys pos :
  np_where_eq y ys pos = [] <-> known ys y = false.
Proof.
  revert pos; induction ys as [|y' ys IH]; simpl; intros pos; [tauto|].
  destruct (Z.eqb y y'); simpl; [split; discriminate|apply IH].
Qed.

Lemma np_where_eq_head y ys pos k rest :
  np_where_eq y ys pos = k :: rest ->
  exists j, k = pos + j /\ nth_error ys j = Some y /\ ~ In y (firstn j ys).
Proof.
  revert pos; induction ys as [|y' ys IH]; simpl; intros pos E; [discriminate|].
  destruct (Z.eqb_spec y y') as [->|N].
  - injection E as <- _. exists 0. simpl. repeat split; [lia|tauto].
  - destruct (IH _ E) as (j & -> & Hj & Hf).
    exists (S j). simpl. repeat split; [lia|assumption|].
    intros [Q|Q]; [congruence|contradiction].
Qed.

Lemma setitem_ok (rs : list rate) i v :
  i < length rs ->
  exists rs', setitem rs i v = Ok rs' /\ length rs' = length rs /\
              nth_error rs' i = Some v /\
              forall j, j <> i -> nth_error rs' j = nth_error rs j.
Proof.
  revert i; induction rs as [|r rs IH]; simpl; intros i L; [lia|].
  destruct i as [|i].
  - eexists; repeat split. intros [|j] N; [congruence|reflexivity].
  - destruct (IH i) as (rs' & -> & Len & Hi & Ho); [lia|].
    eexists; repeat split; simpl; [congruence|assumption|].
    intros [|j] N; simpl; [reflexivity|]. apply Ho. congruence.
Qed.

(** The loop, started with enough room in [self.rates]: it ends
    normally, keeps the length of [self.rates], writes the rate of each
    known year at the first position of that year, and collects the
    unknown years with their rates in order. *)
Lemma append_loop_spec ys (items : list (Z * rate)) st :
  length ys <= length (cur_rates st) ->
  exists rs',
    append_loop ys items st =
      ({| cur_rates := rs';
          new_year := new_year st
                      ++ filter (fun y => negb (known ys y)) (map fst items);
          new_rate := new_rate st
                      ++ map snd (filter (fun p => negb (known ys (fst p)))
                                         items) |}, Ok tt) /\
    length rs' = length (cur_rates st) /\
    (forall j y r, nth_error ys j = Some y -> ~ In y (firstn j ys) ->
                   last_rate y items = Some r -> nth_error rs' j = Some r) /\
    (forall j, (forall y, nth_error ys j = Some y ->
                          In y (firstn j ys) \/ last_rate y items = None) ->
               nth_error rs' j = nth_error (cur_rates st) j).
Proof.
  revert st; induction items as [|[y0 r0] items IH]; intros st L.
  - exists (cur_rates st). simpl. rewrite !app_nil_r. destruct st; simpl.
    repeat split; intros; discriminate.
  - simpl. destruct (np_where_eq y0 ys 0) as [|k rest] eqn:W.
    + apply np_where_eq_nil in W. rewrite W. simpl.
      destruct (IH {| cur_rates := cur_rates st;
                      new_year := new_year st ++ [y0];
                      new_rate := new_rate st ++ [r0] |})
        as (rs' & E & Len & Hw & Hk); [exact L|].
      exists rs'. rewrite E. simpl. rewrite <- !app_assoc. simpl.
      repeat split; [assumption| |].
      * intros j y r Hj Hf Hl.
        destruct (last_rate y items) as [r'|] eqn:LR.
        -- injection Hl as <-. eapply Hw; eauto.
        -- destruct (Z.eqb_spec y y0) as [->|N]; [|discriminate].
           apply known_false in W. apply nth_error_In in Hj. contradiction.
      * intros j Hyp. rewrite Hk; [reflexivity|].
        intros y Hj. destruct (Hyp y Hj) as [Q|Q]; [now left|right].
        destruct (last_rate y items); [discriminate|reflexivity].
    + destruct (np_where_eq_head _ _ _ _ _ W) as (j0 & -> & Hj0 & Hf0).
      simpl. assert (B : j0 < length ys) by (apply nth_error_Some; congruence).
      destruct (setitem_ok (cur_rates st) j0 r0) as (rs1 & -> & Len1 & Hi1 & Ho1);
        [lia|].
      destruct (IH {| cur_rates := rs1; new_year := new_year st;
                      new_rate := new_rate st |}) as (rs' & E & Len & Hw & Hk);
        [simpl; lia|].
      assert (K : known ys y0 = true)
        by (apply known_In; eapply nth_error_In; eauto).
      exists rs'. rewrite E, K. simpl in *.
      repeat split; [congruence| |].
      * intros j y r Hj Hf Hl.
        destruct (last_rate y items) as [r'|] eqn:LR.
        -- injection Hl as <-. eapply Hw; eauto.
        -- rewrite Hk.
           ++ destruct (Z.eqb_spec y y0) as [->|N]; [|discriminate].
              injection Hl as <-.
              assert (j = j0); [|subst; assumption].
              destruct (Nat.lt_trichotomy j j0) as [Q|[Q|Q]]; [|assumption|].
              ** exfalso. apply Hf0.
                 rewrite <- (firstn_skipn j0 ys) in Hj.
                 rewrite nth_error_app1 in Hj
                   by (rewrite length_firstn; lia).
                 eapply nth_error_In; eauto.
              ** exfalso. apply Hf.
                 rewrite <- (firstn_skipn j ys) in Hj0.
                 rewrite nth_error_app1 in Hj0
                   by (rewrite length_firstn; lia).
                 eapply nth_error_In; eauto.
           ++ intros y' Hj'. right. congruence.
      * intros j Hyp. rewrite Hk.
        -- apply Ho1. intros ->. destruct (Hyp y0 Hj0) as [Q|Q]; [tauto|].
           destruct (last_rate y0 items); [discriminate|].
           rewrite Z.eqb_refl in Q. discriminate.
        -- intros y Hj. destruct (Hyp y Hj) as [Q|Q]; [now left|right].
           destruct (last_rate y items); [discriminate|reflexivity].
Qed.

Lemma map_fst_combine {A B} (l : list A) (l' : list B) :
  length l = length l' -> map fst (combine l l') = l.
Proof.
  revert l'; induction l as [|a l IH]; intros [|b l'] E; simpl in *;
    try reflexivity; try discriminate.
  f_equal. apply IH. congruence.
Qed.

Lemma NoDup_app_filter (l l' : list Z) :
  NoDup l -> NoDup l' ->
  NoDup (l ++ filter (fun y => negb (known l y)) l').
Proof.
  intros ND ND'. apply NoDup_app; [assumption|now apply NoDup_filter|].
  intros a I F. apply filter_In in F. destruct F as [_ F].
  apply known_In in I. rewrite I in F. discriminate.
Qed.


End DiscRatesProps.

(** ** The uncertainty engine *)

Section UncertaintyProps.
Import uncertainty uncertainty.Uncertainty uncertainty.UncImpact.
Context `{Libraries}.

(** *** Construction *)

(** C9.  The base constructor given a non-empty mapping of variables
    stores the empty mapping instead, so that no distribution and no
    label is visible afterwards; given no mapping or an empty one it
    does not assign the attribute at all, and reading it raises. *)
Theorem Uncertainty_init_discards_unc_vars
        (uvs : dict string PyVal) (pool_arg : option Pool) :
  uvs <> [] ->
  unc_vars (Uncertainty.init (Some uvs) pool_arg) = Some [] /\
  distr_dict (Uncertainty.init (Some uvs) pool_arg) = Ok [] /\
  param_labels (Uncertainty.init (Some uvs) pool_arg) = Ok [] /\
  unc_vars (Uncertainty.init None pool_arg) = None /\
  unc_vars (Uncertainty.init (Some []) pool_arg) = None /\
  distr_dict (Uncertainty.init None pool_arg)
    = Raise (AttributeError "unc_vars") /\
  distr_dict (Uncertainty.init (Some []) pool_arg)
    = Raise (AttributeError "unc_vars").
Proof.
  intros NE. destruct uvs as [|uv uvs]; [congruence|].
  repeat split.
Qed.

(** C6.  A concrete [Exposures], [ImpactFuncSet] or [Hazard] given for
    its role is stored as a variable without labels and without
    distributions whose evaluation on the empty assignment returns that
    very object; a variable given for a role is stored as it is; and the
    distributions of the analysis are those of the variables alone, a
    fixed input adding none. *)
Theorem UncImpact_init_wraps_fixed_inputs :
  (forall e impf_unc haz_unc pool_arg,
      exists uvs u,
        unc_vars (UncImpact.init (VObj (ObjExposures e)) impf_unc haz_unc
                                 pool_arg) = Some uvs /\
        dict_get "exp" uvs = Some (VUncVar u) /\
        UncVar.labels u = [] /\ UncVar.distr_dict u = [] /\
        UncVar.eval_unc_var u [] = Ok (ObjExposures e)) /\
  (forall f exp_unc haz_unc pool_arg,
      exists uvs u,
        unc_vars (UncImpact.init exp_unc (VObj (ObjImpactFuncSet f)) haz_unc
                                 pool_arg) = Some uvs /\
        dict_get "impf" uvs = Some (VUncVar u) /\
        UncVar.labels u = [] /\ UncVar.distr_dict u = [] /\
        UncVar.eval_unc_var u [] = Ok (ObjImpactFuncSet f)) /\
  (forall h exp_unc impf_unc pool_arg,
      exists uvs u,
        unc_vars (UncImpact.init exp_unc impf_unc (VObj (ObjHazard h))
                                 pool_arg) = Some uvs /\
        dict_get "haz" uvs = Some (VUncVar u) /\
        UncVar.labels u = [] /\ UncVar.distr_dict u = [] /\
        UncVar.eval_unc_var u [] = Ok (ObjHazard h)) /\
  (forall u impf_unc haz_unc pool_arg,
      exists uvs,
        unc_vars (UncImpact.init (VUncVar u) impf_unc haz_unc pool_arg)
        = Some uvs /\ dict_get "exp" uvs = Some (VUncVar u)) /\
  (forall u exp_unc haz_unc pool_arg,
      exists uvs,
        unc_vars (UncImpact.init exp_unc (VUncVar u) haz_unc pool_arg)
        = Some uvs /\ dict_get "impf" uvs = Some (VUncVar u)) /\
  (forall u exp_unc impf_unc pool_arg,
      exists uvs,
        unc_vars (UncImpact.init exp_unc impf_unc (VUncVar u) pool_arg)
        = Some uvs /\ dict_get "haz" uvs = Some (VUncVar u)) /\
  (forall u_exp u_impf u_haz pool_arg,
      unc_vars (UncImpact.init (VUncVar u_exp) (VUncVar u_impf)
                               (VUncVar u_haz) pool_arg)
      = Some [("exp", VUncVar u_exp); ("impf", VUncVar u_impf);
              ("haz", VUncVar u_haz)]) /\
  (forall e f h pool_arg,
      param_labels (UncImpact.init (VObj (ObjExposures e))
                                   (VObj (ObjImpactFuncSet f))
                                   (VObj (ObjHazard h)) pool_arg) = Ok []) /\
  (forall e u_impf u_haz pool_arg,
      distr_dict (UncImpact.init (VObj (ObjExposures e)) (VUncVar u_impf)
                                 (VUncVar u_haz) pool_arg)
      = Ok (dict_update (dict_update [] (UncVar.distr_dict u_impf))
                        (UncVar.distr_dict u_haz))) /\
  (forall f u_exp u_haz pool_arg,
      distr_dict (UncImpact.init (VUncVar u_exp) (VObj (ObjImpactFuncSet f))
                                 (VUncVar u_haz) pool_arg)
      = Ok (dict_update (dict_update [] (UncVar.distr_dict u_exp))
                        (UncVar.distr_dict u_haz))) /\
  (forall h u_exp u_impf pool_arg,
      distr_dict (UncImpact.init (VUncVar u_exp) (VUncVar u_impf)
                                 (VObj (ObjHazard h)) pool_arg)
      = Ok (dict_update (dict_update [] (UncVar.distr_dict u_exp))
                        (UncVar.distr_dict u_impf))).
Proof.
  repeat split.
  - intros e impf_unc haz_unc pool_arg.
    destruct impf_unc as [[?|?|?]|?], haz_unc as [[?|?|?]|?];
      do 2 eexists; repeat split.
  - intros f exp_unc haz_unc pool_arg.
    destruct exp_unc as [[?|?|?]|?], haz_unc as [[?|?|?]|?];
      do 2 eexists; repeat split.
  - intros h exp_unc impf_unc pool_arg.
    destruct exp_unc as [[?|?|?]|?], impf_unc as [[?|?|?]|?];
      do 2 eexists; repeat split.
  - intros u impf_unc haz_unc pool_arg.
    destruct impf_unc as [[?|?|?]|?], haz_unc as [[?|?|?]|?];
      eexists; repeat split.
  - intros u exp_unc haz_unc pool_arg.
    destruct exp_unc as [[?|?|?]|?], haz_unc as [[?|?|?]|?];
      eexists; repeat split.
  - intros u exp_unc impf_unc pool_arg.
    destruct exp_unc as [[?|?|?]|?], impf_unc as [[?|?|?]|?];
      eexists; repeat split.
Qed.

(** *** Evaluating a variable *)

(** C4 (as the code has it).  [eval_unc_var] hands the mapping to the
    wrapped generator and returns whatever that call returns or raises;
    the declared labels and distributions play no part in it.  In
    particular, on a mapping whose keys are the declared ones the result
    is the generator applied to those named values. *)
Theorem eval_unc_var_is_the_generator_call
        (self : UncVar.t) (kwargs : dict string float64) :
  UncVar.eval_unc_var self kwargs = UncVar.unc_var self kwargs /\
  forall labels' distr',
    UncVar.eval_unc_var
      {| UncVar.labels := labels'; UncVar.distr_dict := distr';
         UncVar.unc_var := UncVar.unc_var self |} kwargs
    = UncVar.eval_unc_var self kwargs.
Proof. split; reflexivity. Qed.

(** *** Sampling *)


Lemma quantile_columns_ext (s1 s2 : Obj) todo df :
  distr_dict s1 = distr_dict s2 ->
  quantile_columns s1 todo df = quantile_columns s2 todo df.
Proof.
  intros E. revert df. induction todo as [|c todo IH]; intros df; simpl.
  - reflexivity.
  - rewrite E. destruct (distr_dict s2); [|reflexivity].
    destruct c; [|reflexivity].
    destruct (dict_get s a); [apply IH|reflexivity].
Qed.

(** the problem descriptor built from the labels *)
Definition problem_of (labels : list string) : Problem :=
  {| num_vars := length labels;
     names := labels;
     bounds := repeat (0, 1)%Z (length labels) |}.

(** [make_sample], step by step *)
Lemma make_sample_unfold N method kwargs (self : Obj) (g : RandomState) :
  make_sample N method kwargs (self, g) =
  let self1 := set_n_samples (Some N) (set_sampling_method (Some method) self) in
  match distr_dict self with
  | Raise e => ((self1, g), Raise e)
  | Ok dd =>
      let self2 := set_problem (Some (problem_of (keys dd))) self1 in
      match sas method with
      | None => ((self2, g), Raise (AttributeError method))
      | Some sampler =>
          match sampler (problem_of (keys dd)) N kwargs g with
          | (g', Raise e) => ((self2, g'), Raise e)
          | (g', Ok m) =>
              match DataFrame_of_matrix m (map LStr (keys dd)) with
              | Raise e => ((self2, g'), Raise e)
              | Ok df =>
                  match quantile_columns self (columns df) df with
                  | Raise e => ((self2, g'), Raise e)
                  | Ok df' => ((set_params df' self2, g'), Ok tt)
                  end
              end
          end
      end
  end.
Proof.
  unfold make_sample, _make_uniform_base_sample, bind, on_self, on_random,
    modify, reading, lift, param_labels. cbn [fst snd].
  change (distr_dict (set_n_samples (Some N)
                        (set_sampling_method (Some method) self)))
    with (distr_dict self).
  destruct (distr_dict self) as [dd|e] eqn:DD; cbn; [|reflexivity].
  fold (problem_of (keys dd)).
  destruct (sas method) as [sampler|]; [|reflexivity].
  destruct (sampler (problem_of (keys dd)) N kwargs g) as [g' [m|e]];
    cbn [fst snd]; [|reflexivity].
  change (distr_dict (set_problem (Some (problem_of (keys dd)))
            (set_n_samples (Some N)
               (set_sampling_method (Some method) self))))
    with (distr_dict self).
  rewrite DD. cbn [rbind].
  destruct (DataFrame_of_matrix m (map LStr (keys dd))) as [df|e];
    [|reflexivity].
  rewrite (quantile_columns_ext _ self) by reflexivity.
  destruct (quantile_columns self (columns df) df); reflexivity.
Qed.

Lemma merge_distr_NoDup vs acc dd :
  NoDup (keys acc) -> merge_distr vs acc = Ok dd -> NoDup (keys dd).
Proof.
  revert acc; induction vs as [|[o|u] vs IH]; simpl; intros acc ND E.
  - now injection E as <-.
  - discriminate.
  - eapply IH; [|eassumption]. now apply keys_dict_update_NoDup.
Qed.

Lemma distr_dict_NoDup self dd : distr_dict self = Ok dd -> NoDup (keys dd).
Proof.
  unfold distr_dict. destruct (unc_vars self); simpl; [|discriminate].
  apply merge_distr_NoDup. constructor.
Qed.

(** the value a cell under label [c] gets: the quantile of the
    distribution registered for [c] *)
Definition quantile_of (dd : dict string Distribution) (c : Label)
           (x : float64) : float64 :=
  match c with
  | LStr s => match dict_get s dd with Some d => ppf d x | None => x end
  | LInt _ => x
  end.

(** a row after the columns in [done] have been transformed *)
Fixpoint quantile_row (dd : dict string Distribution) (done cols : list Label)
         (row : list float64) : list float64 :=
  match cols, row with
  | l :: cols', x :: row' =>
      (if existsb (eqb l) done then quantile_of dd l x else x)
        :: quantile_row dd done cols' row'
  | _, _ => row
  end.

Lemma quantile_row_nil dd cols row : quantile_row dd [] cols row = row.
Proof.
  revert row; induction cols as [|l cols IH]; intros [|x row]; simpl;
    try reflexivity.
  now rewrite IH.
Qed.

Lemma quantile_row_step dd (c : Label) done cols row :
  ~ In c done ->
  quantile_row dd done cols (apply_cells (quantile_of dd c) c cols row)
  = quantile_row dd (c :: done) cols row.
Proof.
  intros N. revert row; induction cols as [|l cols IH]; intros [|x row];
    simpl; try reflexivity.
  rewrite IH. f_equal.
  destruct (Label_eqb c l) eqn:E.
  - apply Label_eqb_eq in E. subst l.
    replace (Label_eqb c c) with true by (symmetry; now apply Label_eqb_eq).
    simpl. destruct (existsb (Label_eqb c) done) eqn:M; [|reflexivity].
    exfalso. apply N. apply existsb_exists in M. destruct M as (y & I & Q).
    apply Label_eqb_eq in Q. now subst.
  - replace (Label_eqb l c) with false; [reflexivity|].
    symmetry. destruct (Label_eqb l c) eqn:E'; [|reflexivity].
    apply Label_eqb_eq in E'. subst l.
    assert (Q : Label_eqb c c = true) by now apply Label_eqb_eq.
    congruence.
Qed.

Lemma quantile_row_nth dd done cols row p l x :
  nth_error cols p = Some l -> nth_error row p = Some x ->
  nth_error (quantile_row dd done cols row) p
  = Some (if existsb (eqb l) done then quantile_of dd l x else x).
Proof.
  revert cols row; induction p as [|p IH]; intros [|l' cols] [|x' row];
    simpl; try discriminate.
  - now intros [= ->] [= ->].
  - apply IH.
Qed.

Lemma quantile_row_length dd done cols row :
  length (quantile_row dd done cols row) = length row.
Proof.
  revert row; induction cols as [|l cols IH]; intros [|x row]; simpl;
    try reflexivity.
  now rewrite IH.
Qed.

Lemma quantile_columns_spec self dd todo df :
  distr_dict self = Ok dd ->
  NoDup todo ->
  (forall c, In c todo -> exists s, c = LStr s /\ In s (keys dd)) ->
  quantile_columns self todo df
  = Ok {| columns := columns df;
          data := map (quantile_row dd todo (columns df)) (data df) |}.
Proof.
  intros DD. revert df. induction todo as [|c todo IH]; intros df ND Hs.
  - simpl. destruct df as [cols rows]. simpl. f_equal. f_equal.
    rewrite <- (map_id rows) at 1. apply map_ext.
    intros row. now rewrite quantile_row_nil.
  - simpl. rewrite DD.
    destruct (Hs c (or_introl eq_refl)) as (s & -> & I).
    destruct (dict_get_In _ _ I) as (d & G). rewrite G.
    inversion ND as [|? ? N ND']; subst.
    rewrite IH; [|assumption|intros c' I'; apply Hs; now right].
    simpl. f_equal. f_equal. rewrite map_map. apply map_ext.
    intros row.
    replace (ppf d) with (quantile_of dd (LStr s)).
    + now apply quantile_row_step.
    + unfold quantile_of. now rewrite G.
Qed.

Lemma DataFrame_of_matrix_ok (m : list (list float64)) cols :
  Forall (fun row => length row = length cols) m ->
  DataFrame_of_matrix m cols = Ok {| columns := cols; data := m |}.
Proof.
  intros F. unfold DataFrame_of_matrix.
  replace (forallb _ m) with true; [reflexivity|].
  symmetry. apply forallb_forall. intros row I.
  rewrite Forall_forall in F. apply Nat.eqb_eq. now apply F.
Qed.

Lemma DataFrame_of_matrix_inv (m : list (list float64)) cols df :
  DataFrame_of_matrix m cols = Ok df ->
  df = {| columns := cols; data := m |}.
Proof.
  unfold DataFrame_of_matrix. destruct (forallb _ m); [|discriminate].
  now intros [= <-].
Qed.

Lemma quantile_columns_columns self todo df df' :
  quantile_columns self todo df = Ok df' -> columns df' = columns df.
Proof.
  revert df; induction todo as [|c todo IH]; intros df; simpl.
  - now intros [= <-].
  - destruct (distr_dict self); [|discriminate].
    destruct c; [|discriminate].
    destruct (dict_get s a); [|discriminate].
    intros E. now rewrite (IH _ E).
Qed.

(** whenever [make_sample] succeeds the columns of the sample are the
    labels, in their order *)
Lemma make_sample_columns N method kwargs self g self' g' :
  make_sample N method kwargs (self, g) = ((self', g'), Ok tt) ->
  exists dd, distr_dict self = Ok dd /\
             columns (params self') = map LStr (keys dd) /\
             unc_vars self' = unc_vars self.
Proof.
  rewrite make_sample_unfold. cbv zeta.
  destruct (distr_dict self) as [dd|]; [|discriminate].
  destruct (sas method) as [sampler|]; [|discriminate].
  destruct (sampler _ N kwargs g) as [g1 [m|]]; [|discriminate].
  destruct (DataFrame_of_matrix m _) as [df|] eqn:DF; [|discriminate].
  destruct (quantile_columns self (columns df) df) as [df'|] eqn:Q;
    [|discriminate].
  intros [= <- <-]. exists dd. repeat split. simpl.
  rewrite (quantile_columns_columns _ _ _ _ Q).
  now rewrite (DataFrame_of_matrix_inv _ _ _ DF).
Qed.

(** C2.  When the named design generator, applied to the problem
    descriptor of the [P] labels, returns a matrix with [P] columns,
    [make_sample] succeeds; the sample has as many rows as the matrix
    and exactly the [P] distinct labels as columns, in label order; the
    cell in row [i] and column [p] is the quantile function of the
    distribution of label [p] applied to the cell [(i, p)] of the
    matrix; and a repeated call yields the same columns in the same
    order. *)
Theorem make_sample_builds_quantile_table
        N method kwargs (self : Obj) (g g' : RandomState) dd sampler m :
  distr_dict self = Ok dd ->
  sas method = Some sampler ->
  sampler (problem_of (keys dd)) N kwargs g = (g', Ok m) ->
  Forall (fun row => length row = length (keys dd)) m ->
  exists self',
    make_sample N method kwargs (self, g) = ((self', g'), Ok tt) /\
    NoDup (keys dd) /\
    problem self' = Some (problem_of (keys dd)) /\
    columns (params self') = map LStr (keys dd) /\
    n_runs self' = length m /\
    Forall (fun row => length row = length (keys dd)) (data (params self')) /\
    (forall i p row x l distr,
        nth_error m i = Some row -> nth_error row p = Some x ->
        nth_error (keys dd) p = Some l -> dict_get l dd = Some distr ->
        exists row', nth_error (data (params self')) i = Some row' /\
                     nth_error row' p = Some (ppf distr x)) /\
    (forall N2 method2 kwargs2 g2 self2 g2',
        make_sample N2 method2 kwargs2 (self', g2) = ((self2, g2'), Ok tt) ->
        columns (params self2) = columns (params self')).
Proof.
  intros DD S R F.
  assert (ND : NoDup (keys dd)) by (eapply distr_dict_NoDup; eauto).
  assert (NDl : NoDup (map LStr (keys dd))).
  { apply Injective_map_NoDup; [|assumption]. intros a b E. congruence. }
  pose proof (make_sample_unfold N method kwargs self g) as U.
  cbv zeta in U. rewrite DD, S, R in U.
  rewrite DataFrame_of_matrix_ok in U by now rewrite length_map.
  erewrite quantile_columns_spec in U; [|exact DD|assumption|].
  2:{ simpl. intros c I. apply in_map_iff in I. destruct I as (s & <- & I). eauto. }
  simpl in U. eexists. split; [exact U|]. simpl.
  repeat split; try assumption.
  - unfold n_runs, n_rows. simpl. apply length_map.
  - apply Forall_map. eapply Forall_impl; [|exact F].
    intros row L. now rewrite quantile_row_length.
  - intros i p row x l distr Hi Hp Hl G.
    exists (quantile_row dd (map LStr (keys dd)) (map LStr (keys dd)) row).
    split; [now apply map_nth_error|].
    erewrite quantile_row_nth;
      [|apply map_nth_error; eassumption|eassumption].
    replace (existsb _ _) with true.
    + unfold quantile_of. now rewrite G.
    + symmetry. apply existsb_exists. exists (LStr l). split.
      * apply in_map. eapply nth_error_In; eauto.
      * apply eqb_refl.
  - intros N2 method2 kwargs2 g2 self2 g2' E.
    apply make_sample_columns in E. destruct E as (dd2 & DD2 & C2 & _).
    change (distr_dict _) with (distr_dict self) in DD2.
    rewrite DD in DD2. injection DD2 as <-. exact C2.
Qed.

(** a design generator whose matrix, for this size and these options,
    does not depend on the state of the random generator (a
    deterministic design, or a seed among the options) *)
Definition reproducible
           (sampler : Problem -> Z -> Options ->
                      M RandomState (list (list float64)))
           (N : Z) (kwargs : Options) : Prop :=
  forall pb g1 g2, snd (sampler pb N kwargs g1) = snd (sampler pb N kwargs g2).


Lemma make_sample_keeps_aai_agg N method kwargs (self : Obj) g :
  aai_agg (fst (fst (make_sample N method kwargs (self, g)))) = aai_agg self.
Proof.
  rewrite make_sample_unfold. cbv zeta.
  destruct (distr_dict self) as [dd|]; [|reflexivity].
  destruct (sas method) as [sampler|]; [|reflexivity].
  destruct (sampler _ N kwargs g) as [g1 [m|]]; [|reflexivity].
  destruct (DataFrame_of_matrix m _) as [df|]; [|reflexivity].
  destruct (quantile_columns self (columns df) df); reflexivity.
Qed.

(** *** Sensitivity *)

(** C3 (what the code does).  Right after construction the sensitivity
    analysis stops with the [ValueError] that points to [make_sample] and
    leaves the object as it was.  Once a non-empty sample exists but no
    impact distribution has been computed, it does not reach the
    [ValueError] that points to [calc_impact_distribution]: the
    constructor assigned [aai], never [aai_agg], and reading
    [self.aai_agg] raises [AttributeError]. *)
Theorem calc_impact_sensitivity_prerequisites
        exp_unc impf_unc haz_unc pool_arg method kwargs :
  calc_impact_sensitivity method kwargs
    (UncImpact.init exp_unc impf_unc haz_unc pool_arg)
  = (UncImpact.init exp_unc impf_unc haz_unc pool_arg,
     Raise (ValueError
       "I found no samples. Please produce first samples using Uncertainty.make_sample().")) /\
  forall N sampling kw g self1 g1,
    make_sample N sampling kw
      (UncImpact.init exp_unc impf_unc haz_unc pool_arg, g)
    = ((self1, g1), Ok tt) ->
    df_empty (params self1) = false ->
    calc_impact_sensitivity method kwargs self1
    = (self1, Raise (AttributeError "aai_agg")).
Proof.
  split; [reflexivity|].
  intros N sampling kw g self1 g1 E NE.
  pose proof (make_sample_keeps_aai_agg N sampling kw
                (UncImpact.init exp_unc impf_unc haz_unc pool_arg) g) as K.
  rewrite E in K. simpl in K.
  unfold calc_impact_sensitivity, bind, get, raise, lift.
  rewrite NE, K. reflexivity.
Qed.

(** the cells of column number [j], in row order *)
Definition column_values (df : DataFrame) (j : nat) : list float64 :=
  map (fun row => nth j row nan) (data df).

Lemma cells_at_unique c cols j (row : list float64) :
  NoDup cols -> nth_error cols j = Some c ->
  hd nan (cells_at c cols row) = nth j row nan.
Proof.
  revert j row; induction cols as [|l cols IH]; intros j row ND Hj.
  - destruct j; discriminate.
  - inversion ND as [|? ? N ND']; subst.
    destruct row as [|x row]; [now destruct j|].
    simpl. destruct (Label_eqb c l) eqn:E.
    + apply Label_eqb_eq in E. subst l.
      destruct j as [|j]; [reflexivity|].
      simpl in Hj. apply nth_error_In in Hj. contradiction.
    + destruct j as [|j]; simpl in Hj.
      * injection Hj as ->.
        assert (Q : Label_eqb c c = true) by now apply Label_eqb_eq.
        congruence.
      * simpl. now apply IH.
Qed.

Lemma filter_absent c (cols : list Label) :
  ~ In c cols -> filter (eqb c) cols = [].
Proof.
  induction cols as [|l cols IH]; intros N; [reflexivity|].
  simpl in *. destruct (Label_eqb c l) eqn:E.
  - apply Label_eqb_eq in E. subst l. tauto.
  - apply IH. tauto.
Qed.

Lemma filter_unique c (cols : list Label) :
  NoDup cols -> In c cols -> filter (eqb c) cols = [c].
Proof.
  induction cols as [|l cols IH]; intros ND I; [contradiction|].
  inversion ND as [|? ? N ND']; subst. simpl.
  destruct (Label_eqb c l) eqn:E.
  - apply Label_eqb_eq in E. subst l. f_equal. now apply filter_absent.
  - destruct I as [->|I]; [|now apply IH].
    assert (Q : Label_eqb c c = true) by now apply Label_eqb_eq.
    congruence.
Qed.

Lemma getitem_unique df j c :
  NoDup (columns df) -> nth_error (columns df) j = Some c ->
  getitem_to_numpy df c = Vec (column_values df j).
Proof.
  intros ND Hj. unfold getitem_to_numpy, column_values.
  rewrite filter_unique; [|assumption|eapply nth_error_In; eauto].
  f_equal. apply map_ext. intros row. now apply cells_at_unique.
Qed.

Lemma sensitivity_loop_spec self df (am : Analyzer) kw todo acc :
  NoDup todo -> (forall c, In c todo -> ~ In c (keys acc)) ->
  match sensitivity_loop self df am kw todo acc with
  | Ok d =>
      keys d = keys acc ++ todo /\
      (forall c, In c todo ->
                 exists idx, am (problem self) (getitem_to_numpy df c) kw
                             = Ok idx /\ dict_get c d = Some idx) /\
      (forall c, ~ In c todo -> dict_get c d = dict_get c acc)
  | Raise e =>
      exists c, In c todo /\
                am (problem self) (getitem_to_numpy df c) kw = Raise e
  end.
Proof.
  revert acc; induction todo as [|c todo IH]; intros acc ND Fresh; simpl.
  - rewrite app_nil_r. repeat split. intros c [].
  - inversion ND as [|? ? N ND']; subst.
    destruct (am (problem self) (getitem_to_numpy df c) kw) as [idx|e] eqn:A;
      [|exists c; auto].
    unfold dict_update. simpl.
    assert (Fc : ~ In c (keys acc)) by (apply Fresh; now left).
    specialize (IH (dict_set c idx acc) ND').
    rewrite keys_dict_set_notin in IH by assumption.
    destruct (sensitivity_loop self df am kw todo (dict_set c idx acc))
      as [d|e].
    + destruct IH as (Kd & Hin & Hout).
      { intros c' I. rewrite in_app_iff. simpl.
        intros [Q|[Q|[]]]; [exact (Fresh c' (or_intror I) Q)|subst; contradiction]. }
      repeat split.
      * rewrite Kd, <- app_assoc. reflexivity.
      * intros c' [<-|I]; [|now apply Hin].
        exists idx. split; [assumption|].
        rewrite Hout by assumption. apply dict_get_set_same.
      * intros c' N'. rewrite Hout by tauto.
        apply dict_get_set_other. intros ->. tauto.
    + destruct IH as (c' & I & A').
      { intros c' I. rewrite in_app_iff. simpl.
        intros [Q|[Q|[]]]; [exact (Fresh c' (or_intror I) Q)|subst; contradiction]. }
      exists c'. auto.
Qed.


(** *** Impact distribution *)

(** What the engine relies on from the caller's pool: it has at least
    one node, and its [map], whatever keyword options it is handed,
    returns the results in submission order when every call succeeds and
    raises when some call raises. *)
Definition map_contract (p : Pool) : Prop :=
  ncpus p <> 0%Z /\
  (forall f xs kw ys, mapM f xs = Ok ys -> pool_map p f xs kw = Ok ys) /\
  (forall f xs kw e, mapM f xs = Raise e ->
                     exists e', pool_map p f xs kw = Raise e').

(** [imp] is the impact computed from the parameter values of [row]:
    each role variable is evaluated on the values of its own labels and
    the impact computation is invoked on the three results. *)
Definition impact_of_row (self : Obj) (row : Series) (imp : Impact) : Prop :=
  exists exp_var haz_var impf_var exp_params haz_params impf_params
         exp haz impf,
    role_var self "exp" = Ok exp_var /\
    role_var self "haz" = Ok haz_var /\
    role_var self "impf" = Ok impf_var /\
    series_select row (UncVar.labels exp_var) = Ok exp_params /\
    series_select row (UncVar.labels haz_var) = Ok haz_params /\
    series_select row (UncVar.labels impf_var) = Ok impf_params /\
    UncVar.eval_unc_var exp_var exp_params = Ok exp /\
    UncVar.eval_unc_var haz_var haz_params = Ok haz /\
    UncVar.eval_unc_var impf_var impf_params = Ok impf /\
    Impact_calc exp impf haz = Ok imp.



Lemma max_width_const (rows : list (list float64)) w :
  rows <> [] -> (forall r, In r rows -> length r = w) -> max_width rows = w.
Proof.
  induction rows as [|r rows IH]; intros NE All; [congruence|].
  simpl. rewrite (All r (or_introl eq_refl)).
  destruct rows as [|r' rows]; [simpl; lia|].
  rewrite IH; [lia|discriminate|].
  intros r0 I. apply All. now right.
Qed.

Definition default_rp (rp_arg : option (list Z)) : list Z :=
  match rp_arg with
  | None => [5; 10; 20; 50; 100; 250]%Z
  | Some l => l
  end.

(** the object once [rp] and the two switches have been stored *)
Definition configured (rp_arg : option (list Z)) (ce ca : bool) (self : Obj)
  : Obj :=
  set_calc_at_event (Some ca)
    (set_calc_eai_exp (Some ce) (set_rp (Some (default_rp rp_arg)) self)).

(** the evaluation of all rows, through the pool or in sequence *)
Definition collected (cfg : Obj) : Result (list Metrics) :=
  match pool cfg with
  | Some p =>
      if Z.eqb (ncpus p) 0 then Raise ZeroDivisionError
      else pool_map p (_map_impact_eval cfg) (iterrows (params cfg))
             [("chunsize",
               ArgInt (Z.min (Z.of_nat (n_runs cfg) / ncpus p) 100))]
  | None => mapM (_map_impact_eval cfg) (iterrows (params cfg))
  end.

(** [pd.DataFrame(rows)] without labels never fails *)
Definition frame_of_rows (rows : list (list float64)) : DataFrame :=
  {| columns := map LInt (seq 0 (max_width rows));
     data := map (pad_row (max_width rows)) rows |}.

(** [calc_impact_distribution], step by step *)
Lemma calc_impact_distribution_unfold rp_arg ce ca (self : Obj) :
  calc_impact_distribution rp_arg ce ca self =
  let cfg := configured rp_arg ce ca self in
  match collected cfg with
  | Raise e => (cfg, Raise e)
  | Ok [] =>
      (cfg, Raise (ValueError
                     "not enough values to unpack (expected 4, got 0)"))
  | Ok ms =>
      let s1 := set_aai_agg
                  (Some (DataFrame_of_scalars (map m_aai_agg ms)
                                              (LStr "aai_agg"))) cfg in
      match DataFrame_of_rows (map m_rp_curve ms)
              (Some (map (fun n => LStr ("rp" ++ str n)%string)
                         (default_rp rp_arg))) with
      | Raise e => (s1, Raise e)
      | Ok F =>
          let s2 := set_freq_curve (Some F) s1 in
          let s3 := if ce
                    then set_eai_exp
                           (Some (frame_of_rows
                                    (map optional_row (map m_eai_exp ms)))) s2
                    else s2 in
          let s4 := if ca
                    then set_at_event
                           (Some (frame_of_rows
                                    (map optional_row (map m_at_event ms)))) s3
                    else s3 in
          (s4, Ok tt)
      end
  end.
Proof.
  unfold calc_impact_distribution, bind, modify, get, lift, raise, ret.
  fold (default_rp rp_arg). fold (configured rp_arg ce ca self).
  set (cfg := configured rp_arg ce ca self).
  change (match pool cfg with
          | Some p => _
          | None => _
          end) with (collected cfg).
  destruct (collected cfg) as [[|m ms]|e]; try reflexivity.
  cbv zeta.
  destruct (DataFrame_of_rows (map m_rp_curve (m :: ms)) _) as [F|e];
    [|reflexivity].
  destruct ce, ca; reflexivity.
Qed.

Lemma nth_error_combine {A B} (l : list A) (l' : list B) i a b :
  nth_error l i = Some a -> nth_error l' i = Some b ->
  nth_error (combine l l') i = Some (a, b).
Proof.
  revert l l'; induction i as [|i IH]; intros [|x l] [|y l']; simpl;
    try discriminate.
  - now intros [= ->] [= ->].
  - apply IH.
Qed.

Lemma nth_error_seq_lt start n i :
  i < n -> nth_error (seq start n) i = Some (start + i).
Proof.
  revert start i; induction n as [|n IH]; intros start i L; [lia|].
  destruct i as [|i]; simpl; [f_equal; lia|].
  rewrite IH by lia. f_equal. lia.
Qed.

Lemma iterrows_length df : length (iterrows df) = length (data df).
Proof.
  unfold iterrows. rewrite length_combine, length_seq, length_map.
  apply Nat.min_id.
Qed.

Lemma iterrows_nth df i row :
  nth_error (data df) i = Some row ->
  nth_error (iterrows df) i = Some (i, combine (columns df) row).
Proof.
  intros Hi. unfold iterrows. apply nth_error_combine.
  - rewrite nth_error_seq_lt; [reflexivity|].
    apply nth_error_Some. congruence.
  - now apply map_nth_error.
Qed.

Lemma map_impact_eval_ok cfg ps m :
  _map_impact_eval cfg ps = Ok m ->
  exists imp rp_ ce ca,
    impact_of_row cfg (snd ps) imp /\
    rp cfg = Some rp_ /\
    calc_eai_exp cfg = Some ce /\ calc_at_event cfg = Some ca /\
    m = {| m_aai_agg := Impact_aai_agg imp;
           m_rp_curve := Impact_freq_curve imp rp_;
           m_eai_exp := if ce then Some (Impact_eai_exp imp) else None;
           m_at_event := if ca then Some (Impact_at_event imp) else None |}.
Proof.
  unfold _map_impact_eval, impact_of_row.
  destruct (role_var cfg "exp") as [exp_var|]; [|discriminate].
  cbn [rbind].
  destruct (series_select (snd ps) (UncVar.labels exp_var)) as [exp_params|]
    eqn:S1;
    [|discriminate].
  cbn [rbind].
  destruct (role_var cfg "haz") as [haz_var|]; [|discriminate].
  cbn [rbind].
  destruct (series_select (snd ps) (UncVar.labels haz_var)) as [haz_params|]
    eqn:S2;
    [|discriminate].
  cbn [rbind].
  destruct (role_var cfg "impf") as [impf_var|]; [|discriminate].
  cbn [rbind].
  destruct (series_select (snd ps) (UncVar.labels impf_var)) as [impf_params|]
    eqn:S3;
    [|discriminate].
  cbn [rbind].
  destruct (UncVar.eval_unc_var exp_var exp_params) as [exp|] eqn:E1;
    [|discriminate].
  cbn [rbind].
  destruct (UncVar.eval_unc_var haz_var haz_params) as [haz|] eqn:E2;
    [|discriminate].
  cbn [rbind].
  destruct (UncVar.eval_unc_var impf_var impf_params) as [impf|] eqn:E3;
    [|discriminate].
  cbn [rbind].
  destruct (Impact_calc exp impf haz) as [imp|] eqn:E4; [|discriminate].
  cbn [rbind].
  destruct (rp cfg) as [rp_|]; [|discriminate]. cbn [rbind getattr].
  destruct (calc_eai_exp cfg) as [ce|]; [|discriminate]. cbn [rbind getattr].
  destruct (calc_at_event cfg) as [ca|]; [|discriminate]. cbn [rbind getattr].
  intros [= <-].
  exists imp, rp_, ce, ca. repeat split.
  exists exp_var, haz_var, impf_var, exp_params, haz_params, impf_params,
    exp, haz, impf.
  repeat split; try assumption; reflexivity.
Qed.

Lemma collected_mapM cfg ms :
  (forall p, pool cfg = Some p -> map_contract p) ->
  collected cfg = Ok ms ->
  mapM (_map_impact_eval cfg) (iterrows (params cfg)) = Ok ms.
Proof.
  unfold collected. intros C.
  destruct (pool cfg) as [p|]; [|trivial].
  destruct (C p eq_refl) as (NZ & Hok & Hraise).
  destruct (Z.eqb_spec (ncpus p) 0) as [Z0|_]; [contradiction|].
  intros E.
  destruct (mapM (_map_impact_eval cfg) (iterrows (params cfg)))
    as [ys|e] eqn:S.
  - rewrite (Hok _ _ _ _ S) in E. exact E.
  - destruct (Hraise _ _ [("chunsize",
                ArgInt (Z.min (Z.of_nat (n_runs cfg) / ncpus p) 100))] _ S)
      as (e' & R).
    rewrite R in E. discriminate.
Qed.

Lemma DataFrame_of_rows_labelled rows cols F :
  rows <> [] ->
  DataFrame_of_rows rows (Some cols) = Ok F ->
  F = {| columns := cols; data := map (pad_row (length cols)) rows |}.
Proof.
  unfold DataFrame_of_rows. destruct rows as [|r rows]; [congruence|].
  intros _. destruct (Nat.eqb_spec (length cols) (max_width (r :: rows)))
    as [->|]; [|discriminate].
  now intros [= <-].
Qed.





End UncertaintyProps.

(* ===================================================================== *)
(** * Part III. The properties on concrete objects                        *)
(* ===================================================================== *)

Section Instances.
Import uncertainty uncertainty.Uncertainty uncertainty.UncImpact.
#[local] Existing Instance demo.D.
#[local] Existing Instance demo.L.
Local Open Scope Z_scope.

(** **** the model at work *)

Example demo_sample :
  params demo.unc1
  = {| columns := [LStr "a"; LStr "b"]; data := [[0; 5]; [1; 10]] |}.
Proof. reflexivity. Qed.

Example demo_tables :
  aai_agg demo.unc2
  = Some {| columns := [LStr "aai_agg"]; data := [[35]; [41]] |} /\
  freq_curve demo.unc2
  = Some {| columns := [LStr "rp5"; LStr "rp10"];
            data := [[175; 350]; [205; 410]] |} /\
  eai_exp demo.unc2
  = Some {| columns := [LInt 0; LInt 1]; data := [[35; 36]; [41; 42]] |} /\
  at_event demo.unc2 = Some DataFrame_empty.
Proof. repeat split. Qed.

Example demo_empty_sample_cannot_be_unpacked :
  snd (calc_impact_distribution None false false demo.unc0)
  = Raise (ValueError "not enough values to unpack (expected 4, got 0)").
Proof. reflexivity. Qed.

Example demo_generator_signature :
  UncVar.eval_unc_var demo.impf_var [("G", 3)] = Ok (ObjImpactFuncSet 4) /\
  UncVar.eval_unc_var demo.impf_var []
  = Raise (TypeError "missing required argument") /\
  UncVar.eval_unc_var demo.impf_var [("G", 3); ("k", 1)]
  = Raise (TypeError "got an unexpected keyword argument").
Proof. repeat split. Qed.

(** without a seed the drawing design is not reproducible *)
Example demo_latin_without_seed :
  ~ reproducible demo.latin_sample 2 [].
Proof.
  intros R. specialize (R (problem_of ["a"]) 0 1). discriminate R.
Qed.

(** **** DiscRates.append *)

Definition rates_2000 : @disc_rates.DiscRates Z string :=
  {| disc_rates.tag := "first";
     disc_rates.years := [2000; 2001];
     disc_rates.rates := [2; 3] |}.

Definition rates_2001 : @disc_rates.DiscRates Z string :=
  {| disc_rates.tag := "second";
     disc_rates.years := [2001; 2002];
     disc_rates.rates := [7; 9] |}.


(** **** Construction and evaluation *)

Lemma Uncertainty_init_discards_unc_vars_witness :
  [("exp", VUncVar demo.exp_var)] <> [] /\
  unc_vars (Uncertainty.init (Some [("exp", VUncVar demo.exp_var)]) None)
  = Some [].
Proof.
  split; [discriminate|].
  apply (Uncertainty_init_discards_unc_vars
           [("exp", VUncVar demo.exp_var)] None).
  discriminate.
Defined.

(** the key sets of a mapping and a label list agree *)
Definition same_key_set (ks ls : list string) : Prop :=
  forall k, In k ks <-> In k ls.

(** C4 as stated fails: the generator of [demo.impf_var] has a defaulted
    parameter [_id] that is not among the declared labels; a mapping
    that supplies it has a key set different from the labels, and
    [eval_unc_var] returns the generated object instead of failing. *)
Lemma eval_unc_var_accepts_undeclared_key :
  ~ (~ same_key_set (keys [("G", 3); ("_id", 7)])
                    (UncVar.labels demo.impf_var) ->
     exists e,
       UncVar.eval_unc_var demo.impf_var [("G", 3); ("_id", 7)] = Raise e).
Proof.
  intros Claim. destruct Claim as (e & E).
  - intros S. destruct (proj1 (S "_id")) as [Q|[]].
    + simpl. auto.
    + discriminate Q.
  - discriminate E.
Qed.

(** **** Sampling *)

Lemma make_sample_builds_quantile_table_witness :
  distr_dict demo.unc0 = Ok (UncVar.distr_dict demo.exp_var) /\
  sas "saltelli" = Some demo.saltelli_sample /\
  demo.saltelli_sample
    (problem_of (keys (UncVar.distr_dict demo.exp_var))) 2 [] 0
  = (0, Ok [[0; 1]; [1; 2]]) /\
  Forall (fun row => length row
                     = length (keys (UncVar.distr_dict demo.exp_var)))
         [[0; 1]; [1; 2]] /\
  exists self',
    make_sample 2 "saltelli" [] (demo.unc0, 0) = ((self', 0), Ok tt) /\
    columns (params self') = [LStr "a"; LStr "b"] /\
    n_runs self' = 2%nat /\
    exists row', nth_error (data (params self')) 1 = Some row' /\
                 nth_error row' 1 = Some 10.
Proof.
  split; [reflexivity|]. split; [reflexivity|]. split; [reflexivity|].
  split; [repeat constructor|].
  destruct (make_sample_builds_quantile_table
              2 "saltelli" [] demo.unc0 0 0
              (UncVar.distr_dict demo.exp_var) demo.saltelli_sample
              [[0; 1]; [1; 2]])
    as (self' & E & _ & _ & C & R & _ & Cell & _);
    [reflexivity|reflexivity|reflexivity|repeat constructor|].
  exists self'. split; [exact E|]. split; [exact C|]. split; [exact R|].
  apply (Cell 1%nat 1%nat [1; 2] 2 "b"
              (@Build_Distribution demo.D (fun x : Z => 5 * x)));
    reflexivity.
Defined.


(** **** Sensitivity *)

Lemma calc_impact_sensitivity_prerequisites_witness :
  make_sample 2 "saltelli" [] (demo.unc0, 0) = ((demo.unc1, 0), Ok tt) /\
  df_empty (params demo.unc1) = false /\
  calc_impact_sensitivity "sobol" [] demo.unc1
  = (demo.unc1, Raise (AttributeError "aai_agg")).
Proof.
  split; [reflexivity|]. split; [reflexivity|].
  apply (proj2 (calc_impact_sensitivity_prerequisites
                  (VUncVar demo.exp_var)
                  (VObj (@ObjImpactFuncSet demo.D 10))
                  (VObj (@ObjHazard demo.D 20)) None "sobol" [])
               2 "saltelli" [] 0 demo.unc1 0);
    reflexivity.
Defined.


(** **** Impact distribution *)




End Instances.


(* ===================================================================== *)
(** * Part IV. The rest of the two modules                                *)
(* ===================================================================== *)

From Stdlib Require Import DecimalZ.

(** ** More on dictionaries *)

(** [k] is among [l] *)
Definition memb {K} `{Eqb K} (k : K) (l : list K) : bool := existsb (eqb k) l.

Lemma memb_In {K} `{Eqb K} (k : K) l : memb k l = true <-> In k l.
Proof.
  unfold memb. rewrite existsb_exists. split.
  - intros (x & I & E). apply eqb_eq in E. now subst.
  - intros I. exists k. split; [assumption|apply eqb_refl].
Qed.

Lemma memb_false {K} `{Eqb K} (k : K) l : memb k l = false <-> ~ In k l.
Proof.
  rewrite <- memb_In. destruct (memb k l); split; congruence.
Qed.

(** a lookup after [d.update(other)]: the entry of [other] if it has one,
    the entry of [d] otherwise *)
Lemma dict_get_update {K V} `{Eqb K} (k : K) (d other : dict K V) :
  NoDup (keys other) ->
  dict_get k (dict_update d other)
  = match dict_get k other with
    | Some v => Some v
    | None => dict_get k d
    end.
Proof.
  unfold dict_update. revert d.
  induction other as [|[k0 v0] other IH]; intros d ND; simpl; [reflexivity|].
  inversion ND as [|? ? N ND']; subst.
  rewrite IH by assumption.
  destruct (eqb k k0) eqn:E.
  - apply eqb_eq in E. subst k0.
    apply dict_get_None in N. rewrite N. apply dict_get_set_same.
  - apply eqb_false in E.
    destruct (dict_get k other); [reflexivity|].
    now apply dict_get_set_other.
Qed.

(** the keys after [d.update(other)]: those of [d], then the new ones of
    [other] in their order *)
Lemma keys_dict_update {K V} `{Eqb K} (d other : dict K V) :
  NoDup (keys other) ->
  keys (dict_update d other)
  = keys d ++ filter (fun k => negb (memb k (keys d))) (keys other).
Proof.
  unfold dict_update. revert d.
  induction other as [|[k0 v0] other IH]; intros d ND; simpl.
  - now rewrite app_nil_r.
  - inversion ND as [|? ? N ND']; subst. rewrite IH by assumption.
    destruct (memb k0 (keys d)) eqn:M; simpl.
    + apply memb_In in M. now rewrite keys_dict_set_In.
    + apply memb_false in M. rewrite keys_dict_set_notin by assumption.
      rewrite <- app_assoc. simpl. f_equal. f_equal.
      apply filter_ext_in. intros k I. f_equal.
      destruct (memb k (keys d)) eqn:M1.
      * apply memb_In. apply memb_In in M1. rewrite in_app_iff. now left.
      * apply memb_false. apply memb_false in M1. rewrite in_app_iff.
        intros [Q|[Q|[]]]; [contradiction|]. subst. contradiction.
Qed.

(** ** DiscRates: consistency, membership, repeated appends *)

Section DiscRatesMore.
Import disc_rates.
Context {rate Tag : Type}.
Variable Tag_append : Tag -> Tag -> Tag.

Lemma check_ok (d : @DiscRates rate Tag) :
  check d = Ok tt <-> length (years d) = length (rates d).
Proof.
  unfold check, checker_size.
  destruct (Nat.eqb_spec (length (years d)) (length (rates d))); split;
    congruence.
Qed.

Lemma filter_known_nil (l : list Z) :
  filter (fun y => negb (known [] y)) l = l.
Proof.
  induction l as [|y l IH]; simpl; [reflexivity|]. f_equal. exact IH.
Qed.

Lemma map_fst_filter_fst {A B} (f : A -> bool) (items : list (A * B)) :
  map fst (filter (fun p => f (fst p)) items) = filter f (map fst items).
Proof.
  induction items as [|[a b] items IH]; simpl; [reflexivity|].
  destruct (f a); simpl; now rewrite IH.
Qed.

(** What [append] does to a consistent object given a consistent
    argument, in both branches. *)
Lemma append_consistent_spec (self d : @DiscRates rate Tag) :
  check self = Ok tt -> check d = Ok tt ->
  exists self' rs',
    append Tag_append d self = (self', Ok tt) /\
    years self'
    = years self ++ filter (fun y => negb (known (years self) y)) (years d) /\
    rates self'
    = rs' ++ map snd (filter (fun p => negb (known (years self) (fst p)))
                             (combine (years d) (rates d))) /\
    length rs' = length (rates self) /\
    check self' = Ok tt /\
    (forall j y r,
        nth_error (years self) j = Some y -> ~ In y (firstn j (years self)) ->
        last_rate y (combine (years d) (rates d)) = Some r ->
        nth_error rs' j = Some r) /\
    (forall j, (forall y, nth_error (years self) j = Some y ->
                          In y (firstn j (years self))
                          \/ last_rate y (combine (years d) (rates d)) = None) ->
               nth_error rs' j = nth_error (rates self) j).
Proof.
  intros Cs Cd. pose proof (proj1 (check_ok self) Cs) as Ls.
  pose proof (proj1 (check_ok d) Cd) as Ld.
  unfold append. rewrite Cd.
  destruct (Nat.eqb_spec (length (years self)) 0) as [Z0|NZ].
  - assert (Ey : years self = []) by now destruct (years self).
    assert (Er : rates self = [])
      by (rewrite Z0 in Ls; now destruct (rates self)).
    exists d, []. rewrite Ey, Er. simpl.
    split; [reflexivity|]. split; [now rewrite filter_known_nil|].
    split.
    { replace (filter _ (combine (years d) (rates d)))
        with (combine (years d) (rates d)).
      - clear Cd. revert Ld. generalize (rates d) as rs, (years d) as ys.
        intros rs ys. revert rs.
        induction ys as [|y ys IH]; intros [|r rs] L; simpl in *;
          try reflexivity; try discriminate.
        f_equal. apply IH. congruence.
      - generalize (combine (years d) (rates d)) as items.
        induction items as [|p items IH]; simpl; [reflexivity|].
        now rewrite <- IH. }
    split; [reflexivity|]. split; [exact Cd|].
    split; intros [|j]; simpl; intros; try discriminate; reflexivity.
  - destruct (append_loop_spec (years self) (combine (years d) (rates d))
                {| cur_rates := rates self; new_year := []; new_rate := [] |})
      as (rs' & E & Len & Hw & Hk); [simpl; lia|].
    rewrite E. simpl in *. rewrite map_fst_combine in * by assumption.
    eexists. exists rs'. split; [reflexivity|]. simpl.
    split; [reflexivity|]. split; [reflexivity|]. split; [exact Len|].
    split; [|split; assumption].
    apply check_ok. simpl. rewrite !length_app, length_map, Len, Ls. f_equal.
    rewrite <- (length_map fst
                  (filter (fun p : Z * rate => negb (known (years self) (fst p)))
                          (combine (years d) (rates d)))).
    rewrite (map_fst_filter_fst (fun y => negb (known (years self) y))).
    now rewrite map_fst_combine.
Qed.

(** X1.  Consistency is kept.  On a consistent object, [append] completes
    exactly for a consistent argument and then leaves a consistent object;
    for an inconsistent argument it raises [ValueError] and leaves the
    object, its tag included, as it was. *)
Theorem append_keeps_consistency (self d : @DiscRates rate Tag) :
  check self = Ok tt ->
  (check d = Ok tt ->
   exists self', append Tag_append d self = (self', Ok tt) /\
                 check self' = Ok tt) /\
  (check d <> Ok tt ->
   exists msg, append Tag_append d self = (self, Raise (ValueError msg))).
Proof.
  intros Cs. split.
  - intros Cd.
    destruct (append_consistent_spec self d Cs Cd)
      as (self' & rs' & E & _ & _ & _ & C & _).
    eauto.
  - intros Cd. unfold append. revert Cd. unfold check, checker_size.
    destruct (Nat.eqb (length (years d)) (length (rates d)));
      [congruence|eauto].
Qed.

(** X2.  After a completed [append] the years of the object are exactly
    the years it had together with the years of the argument, and they
    are free of duplicates whenever both year arrays were. *)
Theorem append_years_are_the_union (self d : @DiscRates rate Tag) :
  check self = Ok tt -> check d = Ok tt ->
  exists self',
    append Tag_append d self = (self', Ok tt) /\
    (forall y, In y (years self') <-> In y (years self) \/ In y (years d)) /\
    (forall j y, nth_error (years self) j = Some y ->
                 nth_error (years self') j = Some y) /\
    (NoDup (years self) -> NoDup (years d) -> NoDup (years self')).
Proof.
  intros Cs Cd.
  destruct (append_consistent_spec self d Cs Cd)
    as (self' & rs' & E & Y & _).
  exists self'. split; [exact E|]. rewrite Y. split; [|split].
  - intros y. rewrite in_app_iff, filter_In. split.
    + tauto.
    + intros [I|I]; [now left|].
      destruct (known (years self) y) eqn:K.
      * left. now apply known_In.
      * right. split; [exact I|reflexivity].
  - intros j y Hj. rewrite nth_error_app1; [assumption|].
    apply nth_error_Some. congruence.
  - apply NoDup_app_filter.
Qed.







End DiscRatesMore.

(** ** DiscRates: [clear], [_read_one], [read], [__init__] *)

Module disc_rates_io.
Import disc_rates.

(** a [file_name] or [description] argument: a string or a list of strings *)
Inductive StrOrList : Type :=
| OneStr (s : string)
| StrList (l : list string).

Section Model.

(** External collaborators of the file reading:
    - [Tag_new] is [Tag()];
    - [get_file_names] and the two uses of [to_str_list] come from
      [climada.util.files_handler] (the second argument of [to_str_list]
      is a string or list of strings for the descriptions; a dictionary,
      a list of dictionaries or [None] for the variable names);
    - [read_source] is [climada.entity.disc_rates.source.read], which fills
      the object it is given from one file;
    - [Pool_map] is the [map] of a freshly created [pathos] pool over the
      zipped argument lists. *)
Context {rate Tag VarArg VarNames : Type}.
Variable Tag_append : Tag -> Tag -> Tag.
Variable Tag_new : Tag.
Variable None_var_names : VarArg.
Variable get_file_names : StrOrList -> Result (list string).
Variable to_str_list_descriptions :
  nat -> StrOrList -> string -> Result (list string).
Variable to_str_list_var_names :
  nat -> VarArg -> string -> Result (list VarNames).
Variable read_source :
  @DiscRates rate Tag -> string -> string -> VarNames ->
  Result (@DiscRates rate Tag).
Variable Pool_map :
  (string * string * VarNames -> Result (@DiscRates rate Tag)) ->
  list (string * string * VarNames) -> Result (list (@DiscRates rate Tag)).

(** the attributes [clear] assigns *)
Definition cleared : @DiscRates rate Tag :=
  {| tag := Tag_new; years := []; rates := [] |}.

(** [DiscRates.clear(self)] *)
Definition clear : M (@DiscRates rate Tag) unit := modify (fun _ => cleared).

(** [DiscRates._read_one(file_name, description, var_names)]: a new,
    cleared object filled by [read_source] *)
Definition _read_one (args : string * string * VarNames)
  : Result (@DiscRates rate Tag) :=
  let '(file_name, description, var_names) := args in
  read_source cleared file_name description var_names.

(** [zip(a, b, c)] *)
Fixpoint zip3 {A B C} (a : list A) (b : list B) (c : list C)
  : list (A * B * C) :=
  match a, b, c with
  | x :: a', y :: b', z :: c' => (x, y, z) :: zip3 a' b' c'
  | _, _, _ => []
  end.

(** [for disc, file in zip(disc_part, all_files): self.append(disc)] *)
Fixpoint append_each (parts : list (@DiscRates rate Tag * string))
  : M (@DiscRates rate Tag) unit :=
  match parts with
  | [] => ret tt
  | (disc, _) :: rest =>
      bind (append Tag_append disc) (fun _ => append_each rest)
  end.

(** [DiscRates.read(self, files, descriptions='', var_names=None)] *)
Definition read (files descriptions : StrOrList) (var_names : VarArg)
  : M (@DiscRates rate Tag) unit :=
  (all_files <- lift (get_file_names files) ;;
   desc_list <- lift (to_str_list_descriptions (length all_files)
                                               descriptions "descriptions") ;;
   var_list <- lift (to_str_list_var_names (length all_files)
                                           var_names "var_names") ;;
   clear ;;;
   disc_part <- lift (Pool_map _read_one (zip3 all_files desc_list var_list)) ;;
   append_each (combine disc_part all_files))%py.

(** [DiscRates.__init__(self, file_name='', description='')], on the
    object under construction *)
Definition init (file_name description : StrOrList)
  : M (@DiscRates rate Tag) unit :=
  (clear ;;;
   match file_name with
   | OneStr "" => ret tt
   | _ => read file_name description None_var_names
   end)%py.

End Model.
End disc_rates_io.

Section DiscRatesReadProps.
Import disc_rates disc_rates_io.
Context {rate Tag VarArg VarNames : Type}.
Variable Tag_append : Tag -> Tag -> Tag.
Variable Tag_new : Tag.
Variable get_file_names : StrOrList -> Result (list string).
Variable to_str_list_descriptions :
  nat -> StrOrList -> string -> Result (list string).
Variable to_str_list_var_names :
  nat -> VarArg -> string -> Result (list VarNames).
Variable read_source :
  @DiscRates rate Tag -> string -> string -> VarNames ->
  Result (@DiscRates rate Tag).
Variable Pool_map :
  (string * string * VarNames -> Result (@DiscRates rate Tag)) ->
  list (string * string * VarNames) -> Result (list (@DiscRates rate Tag)).

(** the pool returns the results in submission order when every call
    succeeds and raises when some call raises *)
Definition in_order_map : Prop :=
  (forall f xs ys, mapM f xs = Ok ys -> Pool_map f xs = Ok ys) /\
  (forall f xs e, mapM f xs = Raise e -> exists e', Pool_map f xs = Raise e').

Lemma zip3_length {A B C} (a : list A) (b : list B) (c : list C) :
  length (zip3 a b c) <= length a.
Proof.
  revert b c; induction a as [|x a IH]; intros [|y b] [|z c]; simpl;
    try lia.
  specialize (IH b c). lia.
Qed.

Lemma map_fst_combine_shorter {A B} (l : list A) (l' : list B) :
  length l <= length l' -> map fst (combine l l') = l.
Proof.
  revert l'; induction l as [|a l IH]; intros [|b l'] L; simpl in *;
    try reflexivity; try lia.
  f_equal. apply IH. lia.
Qed.

Lemma append_each_spec (parts : list (@DiscRates rate Tag * string)) self :
  check self = Ok tt ->
  Forall (fun d => check d = Ok tt) (map fst parts) ->
  exists self',
    append_each Tag_append parts self = (self', Ok tt) /\
    check self' = Ok tt /\
    (forall y, In y (years self')
               <-> In y (years self)
                   \/ exists d, In d (map fst parts) /\ In y (years d)) /\
    (NoDup (years self) ->
     Forall (fun d => NoDup (years d)) (map fst parts) ->
     NoDup (years self')).
Proof.
  revert self; induction parts as [|[d f] parts IH]; intros self Cs F.
  - exists self. simpl. repeat split; auto.
    + intros [I|(d & [] & _)]; assumption.
  - simpl in F. inversion F as [|? ? Cd F']; subst.
    destruct (append_consistent_spec Tag_append self d Cs Cd)
      as (s1 & rs' & E & Y & _ & _ & C1 & _).
    destruct (IH s1 C1 F') as (self' & E' & C' & Mem & ND).
    exists self'. simpl. unfold bind. rewrite E.
    split; [exact E'|]. split; [exact C'|].
    assert (M1 : forall y, In y (years s1)
                           <-> In y (years self) \/ In y (years d)).
    { intros y. rewrite Y, in_app_iff, filter_In. split; [tauto|].
      intros [I|I]; [now left|].
      destruct (known (years self) y) eqn:K.
      - left. now apply known_In.
      - right. split; [exact I|reflexivity]. }
    split.
    + intros y. rewrite Mem, M1. split.
      * intros [[I|I]|(d' & I & Iy)]; [now left| |].
        -- right. exists d. split; [now left|assumption].
        -- right. exists d'. split; [now right|assumption].
      * intros [I|(d' & [<-|I] & Iy)]; [now left; left|now left; right|].
        right. exists d'. auto.
    + intros NDs NDp. inversion NDp as [|? ? NDd NDp']; subst.
      apply ND; [|assumption]. rewrite Y. now apply NoDup_app_filter.
Qed.

(** X4.  Reading files whose contents are each consistent: when the
    files can be listed and read, [read] completes and the object, whatever
    it held before, is consistent and holds exactly the years found in the
    files, without duplicates if no file repeats a year. *)
Theorem read_builds_consistent_union
        files descriptions var_names (self : @DiscRates rate Tag)
        all_files desc_list var_list parts :
  in_order_map ->
  get_file_names files = Ok all_files ->
  to_str_list_descriptions (length all_files) descriptions "descriptions"
  = Ok desc_list ->
  to_str_list_var_names (length all_files) var_names "var_names"
  = Ok var_list ->
  mapM (_read_one Tag_new read_source) (zip3 all_files desc_list var_list)
  = Ok parts ->
  Forall (fun d => check d = Ok tt) parts ->
  exists self',
    read Tag_append Tag_new get_file_names to_str_list_descriptions
         to_str_list_var_names read_source Pool_map
         files descriptions var_names self = (self', Ok tt) /\
    check self' = Ok tt /\
    (forall y, In y (years self')
               <-> exists d, In d parts /\ In y (years d)) /\
    (Forall (fun d => NoDup (years d)) parts -> NoDup (years self')).
Proof.
  intros (Hok & _) G D V R F.
  assert (P : map fst (combine parts all_files) = parts).
  { apply map_fst_combine_shorter.
    rewrite (mapM_length _ _ _ R). apply zip3_length. }
  destruct (append_each_spec (combine parts all_files) (cleared Tag_new))
    as (self' & E & C & Mem & ND); [reflexivity|now rewrite P|].
  exists self'. unfold read, bind, lift, clear, modify.
  rewrite G, D, V, (Hok _ _ _ R). split; [exact E|]. split; [exact C|].
  rewrite P in *. split.
  - intros y. rewrite Mem. simpl. tauto.
  - apply ND. constructor.
Qed.

(** X5.  A failed [read].  If the files cannot be listed the object is
    left as it was; if some file cannot be read the object is left
    cleared: what it held before is gone and nothing of the readable
    files is kept. *)
Theorem read_failure_states
        files descriptions var_names (self : @DiscRates rate Tag) :
  (forall e, get_file_names files = Raise e ->
     read Tag_append Tag_new get_file_names to_str_list_descriptions
          to_str_list_var_names read_source Pool_map
          files descriptions var_names self = (self, Raise e)) /\
  (forall all_files desc_list var_list e,
     in_order_map ->
     get_file_names files = Ok all_files ->
     to_str_list_descriptions (length all_files) descriptions "descriptions"
     = Ok desc_list ->
     to_str_list_var_names (length all_files) var_names "var_names"
     = Ok var_list ->
     mapM (_read_one Tag_new read_source) (zip3 all_files desc_list var_list)
     = Raise e ->
     exists e',
       read Tag_append Tag_new get_file_names to_str_list_descriptions
            to_str_list_var_names read_source Pool_map
            files descriptions var_names self
       = (cleared Tag_new, Raise e')).
Proof.
  split.
  - intros e G. unfold read, bind, lift. now rewrite G.
  - intros all_files desc_list var_list e (_ & Hraise) G D V R.
    destruct (Hraise _ _ _ R) as (e' & P). exists e'.
    unfold read, bind, lift, clear, modify. now rewrite G, D, V, P.
Qed.

End DiscRatesReadProps.

(** ** The uncertainty engine: labels, samples and what they leave alone *)

Section UncertaintyMore.
Import uncertainty uncertainty.Uncertainty uncertainty.UncImpact.
Context `{Libraries}.

Lemma filter_nothing_known {V} (l : list string) :
  filter (fun k => negb (memb k (keys (@nil (string * V))))) l = l.
Proof.
  induction l as [|k l IH]; simpl; [reflexivity|]. f_equal. exact IH.
Qed.

Lemma memb_app {K} `{Eqb K} (k : K) l l' :
  memb k (l ++ l') = memb k l || memb k l'.
Proof. unfold memb. apply existsb_app. Qed.

Lemma memb_filter_out {K} `{Eqb K} (k : K) (l l' : list K) :
  memb k l || memb k (filter (fun x => negb (memb x l)) l')
  = memb k l || memb k l'.
Proof.
  destruct (memb k l) eqn:M; [reflexivity|]. simpl.
  destruct (memb k l') eqn:M'.
  - apply memb_In. apply memb_In in M'. apply filter_In.
    split; [assumption|]. now rewrite M.
  - apply memb_false. apply memb_false in M'. rewrite filter_In. tauto.
Qed.

(** X6.  The distributions of an analysis built from three variables:
    the labels are those of the exposure variable, then the new ones of
    the impact function variable, then the new ones of the hazard
    variable, none twice; a label declared by several variables is one
    parameter, placed where it was first declared and distributed as the
    last variable declaring it says. *)
Theorem distr_dict_merges_in_role_order
        (u_exp u_impf u_haz : UncVar.t) (pool_arg : option Pool) :
  NoDup (keys (UncVar.distr_dict u_exp)) ->
  NoDup (keys (UncVar.distr_dict u_impf)) ->
  NoDup (keys (UncVar.distr_dict u_haz)) ->
  exists dd,
    distr_dict (UncImpact.init (VUncVar u_exp) (VUncVar u_impf)
                               (VUncVar u_haz) pool_arg) = Ok dd /\
    param_labels (UncImpact.init (VUncVar u_exp) (VUncVar u_impf)
                                 (VUncVar u_haz) pool_arg) = Ok (keys dd) /\
    NoDup (keys dd) /\
    keys dd
    = keys (UncVar.distr_dict u_exp)
      ++ filter (fun k => negb (memb k (keys (UncVar.distr_dict u_exp))))
                (keys (UncVar.distr_dict u_impf))
      ++ filter (fun k => negb (memb k (keys (UncVar.distr_dict u_exp)))
                          && negb (memb k (keys (UncVar.distr_dict u_impf))))
                (keys (UncVar.distr_dict u_haz)) /\
    forall l,
      dict_get l dd
      = match dict_get l (UncVar.distr_dict u_haz) with
        | Some x => Some x
        | None =>
            match dict_get l (UncVar.distr_dict u_impf) with
            | Some x => Some x
            | None => dict_get l (UncVar.distr_dict u_exp)
            end
        end.
Proof.
  intros Ne Ni Nh.
  set (de := UncVar.distr_dict u_exp). set (di := UncVar.distr_dict u_impf).
  set (dh := UncVar.distr_dict u_haz).
  exists (dict_update (dict_update (dict_update [] de) di) dh).
  assert (K1 : keys (dict_update [] de) = keys de).
  { rewrite keys_dict_update by assumption. simpl.
    apply (filter_nothing_known (V := Distribution)). }
  assert (K2 : keys (dict_update (dict_update [] de) di)
               = keys de ++ filter (fun k => negb (memb k (keys de))) (keys di)).
  { rewrite keys_dict_update by assumption. now rewrite K1. }
  split; [reflexivity|].
  split.
  { unfold param_labels.
    change (distr_dict _)
      with (Ok (dict_update (dict_update (dict_update [] de) di) dh)).
    reflexivity. }
  split.
  { do 3 apply keys_dict_update_NoDup. constructor. }
  split.
  - rewrite keys_dict_update by assumption. rewrite K2, <- app_assoc.
    f_equal. f_equal. apply filter_ext. intros k.
    rewrite memb_app, memb_filter_out. apply negb_orb.
  - intros l. rewrite !dict_get_update by assumption.
    destruct (dict_get l dh), (dict_get l di), (dict_get l de); reflexivity.
Qed.

(** X7.  A sample made on an object of the base class is always empty:
    its constructor keeps no variable, so [make_sample] either raises for
    the missing [unc_vars] or builds a table without columns. *)
Theorem base_class_sample_is_empty
        (unc_vars_arg : option (dict string PyVal)) (pool_arg : option Pool)
        N method kwargs (g : RandomState) :
  df_empty (params (fst (fst (make_sample N method kwargs
                                (Uncertainty.init unc_vars_arg pool_arg, g)))))
  = true.
Proof.
  rewrite make_sample_unfold. cbv zeta.
  destruct unc_vars_arg as [[|uv uvs]|]; try reflexivity.
  change (distr_dict (Uncertainty.init (Some (uv :: uvs)) pool_arg))
    with (Ok (@nil (string * Distribution))).
  cbv iota. change (keys (@nil (string * Distribution))) with (@nil string).
  destruct (sas method) as [sampler|]; [|reflexivity].
  destruct (sampler _ N kwargs g) as [g' [m|e]]; [|reflexivity].
  change (map LStr []) with (@nil Label).
  destruct (DataFrame_of_matrix m []) as [df|e] eqn:DF; [|reflexivity].
  apply DataFrame_of_matrix_inv in DF. subst df. simpl.
  unfold df_empty. simpl. apply orb_true_r.
Qed.

(** X8.  [make_sample] never touches the variables, the pool, the stored
    switches, the metric tables or the sensitivity result (tables computed
    from an earlier sample stay in place beside a new sample), and when it
    raises the earlier sample stays too. *)
Theorem make_sample_leaves_results_alone
        N method kwargs (self : Obj) (g : RandomState) :
  let self' := fst (fst (make_sample N method kwargs (self, g))) in
  unc_vars self' = unc_vars self /\ pool self' = pool self /\
  rp self' = rp self /\ calc_eai_exp self' = calc_eai_exp self /\
  calc_at_event self' = calc_at_event self /\
  aai_agg self' = aai_agg self /\ freq_curve self' = freq_curve self /\
  eai_exp self' = eai_exp self /\ at_event self' = at_event self /\
  sensitivity self' = sensitivity self /\
  (snd (make_sample N method kwargs (self, g)) <> Ok tt ->
   params self' = params self).
Proof.
  rewrite make_sample_unfold. cbv zeta.
  destruct (distr_dict self) as [dd|]; [|repeat split].
  destruct (sas method) as [sampler|]; [|repeat split].
  destruct (sampler _ N kwargs g) as [g1 [m|]]; [|repeat split].
  destruct (DataFrame_of_matrix m _) as [df|]; [|repeat split].
  destruct (quantile_columns self (columns df) df); repeat split.
  simpl. congruence.
Qed.

(** *** Rows of a made sample and the generators *)

Lemma In_keys_dict_set {K V} `{Eqb K} (k l : K) (v : V) d :
  In l (keys d) \/ l = k -> In l (keys (dict_set k v d)).
Proof.
  intros I. destruct (dict_get k d) eqn:G.
  - apply dict_get_Some_In in G. rewrite keys_dict_set_In by assumption.
    destruct I as [I| ->]; assumption.
  - apply dict_get_None in G. rewrite keys_dict_set_notin by assumption.
    rewrite in_app_iff. simpl. destruct I as [I| ->]; auto.
Qed.

Lemma In_keys_dict_update {K V} `{Eqb K} (l : K) (d other : dict K V) :
  In l (keys d) \/ In l (keys other) -> In l (keys (dict_update d other)).
Proof.
  unfold dict_update. revert d.
  induction other as [|[k v] other IH]; intros d I; simpl in *.
  - tauto.
  - apply IH. destruct I as [I|[->|I]].
    + left. apply In_keys_dict_set. now left.
    + left. apply In_keys_dict_set. now right.
    + now right.
Qed.

Lemma merge_distr_incl vs acc dd :
  merge_distr vs acc = Ok dd ->
  forall l,
    In l (keys acc)
    \/ (exists u, In (VUncVar u) vs /\ In l (keys (UncVar.distr_dict u))) ->
    In l (keys dd).
Proof.
  revert acc; induction vs as [|[o|u] vs IH]; simpl; intros acc E l I.
  - injection E as <-. destruct I as [I|(u & [] & _)]. exact I.
  - discriminate.
  - apply (IH _ E). destruct I as [I|(u' & [[= ->]|I] & Il)].
    + left. apply In_keys_dict_update. now left.
    + left. apply In_keys_dict_update. now right.
    + right. eauto.
Qed.

Lemma dict_get_In_values {K V} `{Eqb K} (k : K) (d : dict K V) v :
  dict_get k d = Some v -> In v (values d).
Proof.
  induction d as [|[k' v'] d IH]; simpl; [discriminate|].
  destruct (eqb k k'); [intros [= ->]; now left|auto].
Qed.

(** the shape of a sample that [make_sample] has just built *)
Lemma make_sample_shape N method kwargs self g self' g' :
  make_sample N method kwargs (self, g) = ((self', g'), Ok tt) ->
  exists dd,
    distr_dict self = Ok dd /\
    unc_vars self' = unc_vars self /\
    columns (params self') = map LStr (keys dd) /\
    Forall (fun row => length row = length (keys dd)) (data (params self')).
Proof.
  rewrite make_sample_unfold. cbv zeta.
  destruct (distr_dict self) as [dd|] eqn:DD; [|discriminate].
  destruct (sas method) as [sampler|]; [|discriminate].
  destruct (sampler _ N kwargs g) as [g1 [m|]]; [|discriminate].
  destruct (DataFrame_of_matrix m _) as [df|] eqn:DF; [|discriminate].
  assert (Sh : Forall (fun row => length row = length (keys dd)) m).
  { revert DF. unfold DataFrame_of_matrix.
    destruct (forallb _ m) eqn:FB; [|discriminate]. intros _.
    apply Forall_forall. intros row I.
    rewrite forallb_forall in FB. specialize (FB row I).
    apply Nat.eqb_eq in FB. now rewrite length_map in FB. }
  apply DataFrame_of_matrix_inv in DF. subst df. simpl.
  rewrite (quantile_columns_spec self dd (map LStr (keys dd))
             {| columns := map LStr (keys dd); data := m |} DD).
  - intros [= <- <-]. exists dd. repeat split. simpl.
    apply Forall_map. eapply Forall_impl; [|exact Sh].
    intros row L. now rewrite quantile_row_length.
  - apply Injective_map_NoDup; [intros a b E; congruence|].
    eapply distr_dict_NoDup; eauto.
  - intros c I. apply in_map_iff in I. destruct I as (l & <- & I). eauto.
Qed.

(** [row[labels].to_dict()] on a row that has all the labels: the mapping
    has exactly the labels as keys and the cells of the row as values *)
Lemma series_select_spec (row : Series) labels :
  NoDup labels ->
  (forall l, In l labels -> In (LStr l) (keys row)) ->
  exists d,
    series_select row labels = Ok d /\
    keys d = labels /\
    forall l, In l labels -> dict_get l d = dict_get (LStr l) row.
Proof.
  induction labels as [|l0 ls IH]; intros ND All.
  - exists []. repeat split. intros l [].
  - inversion ND as [|? ? N ND']; subst.
    destruct IH as (d & E & Kd & Vd);
      [assumption|intros l I; apply All; now right|].
    destruct (dict_get_In (LStr l0) row (All l0 (or_introl eq_refl)))
      as (x & G).
    exists (dict_update [(l0, x)] d). simpl. rewrite G, E.
    assert (NDd : NoDup (keys d)) by now rewrite Kd.
    split; [reflexivity|]. split.
    + rewrite keys_dict_update by assumption. simpl. f_equal.
      rewrite Kd. clear - N. induction ls as [|l ls IH]; [reflexivity|].
      simpl in *. replace (String.eqb l l0) with false.
      * simpl. f_equal. apply IH. tauto.
      * symmetry. apply String.eqb_neq. intros ->. tauto.
    + intros l I. rewrite dict_get_update by assumption.
      destruct I as [<-|I].
      * replace (dict_get l0 d) with (@None float64).
        -- simpl. now rewrite String.eqb_refl.
        -- symmetry. apply dict_get_None. now rewrite Kd.
      * rewrite (Vd l I).
        destruct (dict_get_In (LStr l) row (All l (or_intror I))) as (y & ->).
        reflexivity.
Qed.

(** the first label that the row lacks is reported *)
Lemma series_select_missing (row : Series) before l after :
  (forall l', In l' before -> In (LStr l') (keys row)) ->
  ~ In (LStr l) (keys row) ->
  series_select row (before ++ l :: after) = Raise (KeyError l).
Proof.
  induction before as [|l0 ls IH]; intros All Miss; simpl.
  - apply dict_get_None in Miss. now rewrite Miss.
  - destruct (dict_get_In (LStr l0) row (All l0 (or_introl eq_refl)))
      as (x & ->).
    rewrite IH; [reflexivity| |assumption].
    intros l' I. apply All. now right.
Qed.

(** a variable as [UncVar.__init__] leaves it: its labels are the keys of
    its distributions, which are distinct *)
Definition as_constructed (u : UncVar.t) : Prop :=
  UncVar.labels u = keys (UncVar.distr_dict u) /\
  NoDup (keys (UncVar.distr_dict u)).

(** the values of sample row [series] under the labels of [u] *)
Definition slice_of (series : Series) (u : UncVar.t)
           (kw : dict string float64) : Prop :=
  series_select series (UncVar.labels u) = Ok kw /\
  keys kw = UncVar.labels u /\
  forall l, In l (UncVar.labels u) -> dict_get l kw = dict_get (LStr l) series.

Lemma made_sample_has_the_labels
      N method kwargs self g self' g' role u i row :
  make_sample N method kwargs (self, g) = ((self', g'), Ok tt) ->
  role_var self role = Ok u ->
  as_constructed u ->
  nth_error (data (params self')) i = Some row ->
  exists kw, slice_of (combine (columns (params self')) row) u kw.
Proof.
  intros MS R (Lu & NDu) Hi.
  destruct (make_sample_shape _ _ _ _ _ _ _ MS) as (dd & DD & _ & Cols & Sh).
  assert (Len : length row = length (keys dd)).
  { rewrite Forall_forall in Sh. apply Sh. eapply nth_error_In; eauto. }
  assert (Sub : forall l, In l (UncVar.labels u) -> In l (keys dd)).
  { intros l I. unfold role_var in R. unfold distr_dict in DD.
    destruct (unc_vars self) as [uvs|]; [|discriminate]. simpl in R, DD.
    destruct (dict_get role uvs) as [[o|u']|] eqn:G; try discriminate.
    injection R as ->.
    apply (merge_distr_incl _ _ _ DD). right. exists u.
    split; [eapply dict_get_In_values; eauto|now rewrite <- Lu]. }
  destruct (series_select_spec (combine (columns (params self')) row)
              (UncVar.labels u)) as (kw & E & K & V).
  - now rewrite Lu.
  - intros l I. unfold keys. rewrite map_fst_combine.
    + rewrite Cols. apply in_map. now apply Sub.
    + rewrite Cols, length_map. now rewrite Len.
  - exists kw. repeat split; assumption.
Qed.

(** X9.  On a sample that [make_sample] has built, the evaluation of a
    row never stops for a missing label: each role variable that is as
    its constructor left it receives a mapping with exactly its own labels
    as keys and the cells of the row under those labels as values, and the
    outcome is that of the three generators and of the impact computation
    on what they return.  In particular an exception can only come from a
    generator or from the impact computation. *)
Theorem made_sample_rows_reach_the_generators
        N method kwargs (self self' : Obj) (g g' : RandomState)
        (u_exp u_haz u_impf : UncVar.t) i row :
  make_sample N method kwargs (self, g) = ((self', g'), Ok tt) ->
  role_var self "exp" = Ok u_exp ->
  role_var self "haz" = Ok u_haz ->
  role_var self "impf" = Ok u_impf ->
  as_constructed u_exp -> as_constructed u_haz -> as_constructed u_impf ->
  nth_error (data (params self')) i = Some row ->
  exists exp_params haz_params impf_params,
    slice_of (combine (columns (params self')) row) u_exp exp_params /\
    slice_of (combine (columns (params self')) row) u_haz haz_params /\
    slice_of (combine (columns (params self')) row) u_impf impf_params /\
    forall rp_arg ce ca,
      _map_impact_eval (configured rp_arg ce ca self')
                       (i, combine (columns (params self')) row)
      = rbind (UncVar.unc_var u_exp exp_params) (fun exp =>
        rbind (UncVar.unc_var u_haz haz_params) (fun haz =>
        rbind (UncVar.unc_var u_impf impf_params) (fun impf =>
        rbind (Impact_calc exp impf haz) (fun imp =>
        Ok {| m_aai_agg := Impact_aai_agg imp;
              m_rp_curve := Impact_freq_curve imp (default_rp rp_arg);
              m_eai_exp := if ce then Some (Impact_eai_exp imp) else None;
              m_at_event := if ca then Some (Impact_at_event imp)
                            else None |})))).
Proof.
  intros MS Re Rh Ri Ce Ch Ci Hi.
  destruct (made_sample_has_the_labels _ _ _ _ _ _ _ _ _ _ _ MS Re Ce Hi)
    as (kwe & Se).
  destruct (made_sample_has_the_labels _ _ _ _ _ _ _ _ _ _ _ MS Rh Ch Hi)
    as (kwh & Sh).
  destruct (made_sample_has_the_labels _ _ _ _ _ _ _ _ _ _ _ MS Ri Ci Hi)
    as (kwi & Si).
  exists kwe, kwh, kwi. repeat (split; [assumption|]).
  intros rp_arg ce ca.
  destruct (make_sample_shape _ _ _ _ _ _ _ MS) as (dd & _ & U & _).
  assert (Same : forall role, role_var (configured rp_arg ce ca self') role
                              = role_var self role).
  { intros role. unfold role_var.
    change (unc_vars (configured rp_arg ce ca self')) with (unc_vars self').
    now rewrite U. }
  unfold _map_impact_eval. rewrite !Same, Re, Rh, Ri. cbn [rbind snd].
  destruct Se as (-> & _), Sh as (-> & _), Si as (-> & _). cbn [rbind].
  unfold UncVar.eval_unc_var.
  destruct (UncVar.unc_var u_exp kwe); [|reflexivity].
  destruct (UncVar.unc_var u_haz kwh); [|reflexivity].
  destruct (UncVar.unc_var u_impf kwi); [|reflexivity].
  cbn [rbind]. destruct (Impact_calc a a1 a0); reflexivity.
Qed.

(** *** When the impact distribution completes, and when it does not *)

Lemma mapM_total {A B} (f : A -> Result B) (P : B -> Prop) xs :
  (forall x, In x xs -> exists y, f x = Ok y /\ P y) ->
  exists ys, mapM f xs = Ok ys /\ Forall P ys.
Proof.
  induction xs as [|x xs IH]; intros All.
  - exists []. split; [reflexivity|constructor].
  - destruct (All x (or_introl eq_refl)) as (y & Fx & Py).
    destruct IH as (ys & E & Fa); [intros x' I; apply All; now right|].
    exists (y :: ys). simpl. rewrite Fx, E. split; [reflexivity|].
    now constructor.
Qed.

Lemma mapM_raise_at {A B} (f : A -> Result B) xs i x e :
  nth_error xs i = Some x -> f x = Raise e ->
  (forall j xj, j < i -> nth_error xs j = Some xj -> exists y, f xj = Ok y) ->
  mapM f xs = Raise e.
Proof.
  revert xs; induction i as [|i IH]; intros [|x0 xs] Hi Fx Before;
    simpl in *; try discriminate.
  - injection Hi as ->. now rewrite Fx.
  - destruct (Before 0 x0) as (y0 & ->); [lia|reflexivity|].
    rewrite (IH xs Hi Fx); [reflexivity|].
    intros j xj L Hj. apply (Before (S j) xj); [lia|exact Hj].
Qed.

Lemma nth_error_combine_inv {A B} (l : list A) (l' : list B) i a b :
  nth_error (combine l l') i = Some (a, b) ->
  nth_error l i = Some a /\ nth_error l' i = Some b.
Proof.
  revert l l'; induction i as [|i IH]; intros [|x l] [|y l']; simpl;
    try discriminate.
  - now intros [= -> ->].
  - apply IH.
Qed.

Lemma iterrows_nth_inv df j x :
  nth_error (iterrows df) j = Some x ->
  exists row, nth_error (data df) j = Some row /\
              x = (j, combine (columns df) row).
Proof.
  destruct x as [a b]. unfold iterrows. intros E.
  apply nth_error_combine_inv in E. destruct E as [Ea Eb].
  rewrite nth_error_map in Eb.
  destruct (nth_error (data df) j) as [row|] eqn:R; [|discriminate].
  injection Eb as <-. exists row. split; [reflexivity|].
  rewrite nth_error_seq_lt in Ea.
  - now injection Ea as <-.
  - apply nth_error_Some. congruence.
Qed.

Lemma map_impact_eval_complete cfg i row imp rp_ ce ca :
  impact_of_row cfg row imp ->
  rp cfg = Some rp_ -> calc_eai_exp cfg = Some ce ->
  calc_at_event cfg = Some ca ->
  _map_impact_eval cfg (i, row)
  = Ok {| m_aai_agg := Impact_aai_agg imp;
          m_rp_curve := Impact_freq_curve imp rp_;
          m_eai_exp := if ce then Some (Impact_eai_exp imp) else None;
          m_at_event := if ca then Some (Impact_at_event imp) else None |}.
Proof.
  intros (ue & uh & ui & pe & ph & pi & exp & haz & impf
          & Re & Rh & Ri & Se & Sh & Si & Ee & Eh & Ei & IC) R Ce Ca.
  unfold _map_impact_eval. cbn [snd].
  rewrite Re. cbn [rbind]. rewrite Se. cbn [rbind].
  rewrite Rh. cbn [rbind]. rewrite Sh. cbn [rbind].
  rewrite Ri. cbn [rbind]. rewrite Si. cbn [rbind].
  rewrite Ee. cbn [rbind]. rewrite Eh. cbn [rbind].
  rewrite Ei. cbn [rbind]. rewrite IC. cbn [rbind].
  rewrite R, Ce, Ca. reflexivity.
Qed.

Lemma collected_of_mapM cfg ms :
  (forall p, pool cfg = Some p -> map_contract p) ->
  mapM (_map_impact_eval cfg) (iterrows (params cfg)) = Ok ms ->
  collected cfg = Ok ms.
Proof.
  unfold collected. intros C S.
  destruct (pool cfg) as [p|]; [|exact S].
  destruct (C p eq_refl) as (NZ & Hok & _).
  destruct (Z.eqb_spec (ncpus p) 0) as [Z0|_]; [contradiction|].
  now apply Hok.
Qed.

Lemma DataFrame_of_rows_ok (rows : list (list float64)) cols :
  rows <> [] -> length cols = max_width rows ->
  DataFrame_of_rows rows (Some cols)
  = Ok {| columns := cols; data := map (pad_row (max_width rows)) rows |}.
Proof.
  intros NE L. unfold DataFrame_of_rows.
  destruct rows as [|r rows]; [congruence|].
  now rewrite L, Nat.eqb_refl.
Qed.


(** X11.  A sufficient condition for completion: the sample has a row,
    for every row the impact can be computed from its parameter values,
    and each frequency curve has one entry per return period.  Then
    [calc_impact_distribution] completes. *)
Theorem calc_impact_distribution_completes rp_arg ce ca (self : Obj) :
  (forall p, pool self = Some p -> map_contract p) ->
  n_runs self <> 0 ->
  (forall i row,
      nth_error (data (params self)) i = Some row ->
      exists imp,
        impact_of_row self (combine (columns (params self)) row) imp /\
        length (Impact_freq_curve imp (default_rp rp_arg))
        = length (default_rp rp_arg)) ->
  exists self', calc_impact_distribution rp_arg ce ca self = (self', Ok tt).
Proof.
  intros C NZ Rows. rewrite calc_impact_distribution_unfold. cbv zeta.
  set (cfg := configured rp_arg ce ca self).
  destruct (mapM_total (_map_impact_eval cfg)
              (fun m => length (m_rp_curve m) = length (default_rp rp_arg))
              (iterrows (params self))) as (ms & S & Fa).
  { intros x I. destruct (In_nth_error _ _ I) as (j & Hj).
    destruct (iterrows_nth_inv _ _ _ Hj) as (row & Hr & ->).
    destruct (Rows j row Hr) as (imp & Imp & L).
    eexists. split.
    - apply (map_impact_eval_complete cfg j _ imp (default_rp rp_arg) ce ca);
        [exact Imp|reflexivity..].
    - exact L. }
  rewrite (collected_of_mapM cfg ms C S).
  destruct ms as [|m0 ms0] eqn:Ems.
  { apply mapM_length in S. rewrite iterrows_length in S.
    unfold n_runs, n_rows in NZ. simpl in S. congruence. }
  rewrite <- Ems in *.
  assert (W : max_width (map m_rp_curve ms) = length (default_rp rp_arg)).
  { apply max_width_const.
    - rewrite Ems. discriminate.
    - intros r I. apply in_map_iff in I. destruct I as (m & <- & I).
      rewrite Forall_forall in Fa. now apply Fa. }
  rewrite (DataFrame_of_rows_ok (map m_rp_curve ms)).
  - eexists. reflexivity.
  - rewrite Ems. discriminate.
  - now rewrite W, length_map.
Qed.

(** X12.  Without a pool the run stops at the first row that cannot be
    evaluated and raises that row's exception; no metric table is
    assigned, so tables of an earlier run stay as they were. *)
Theorem first_failing_row_stops_the_run
        rp_arg ce ca (self : Obj) i row e :
  pool self = None ->
  nth_error (data (params self)) i = Some row ->
  _map_impact_eval (configured rp_arg ce ca self)
                   (i, combine (columns (params self)) row) = Raise e ->
  (forall j rowj,
      j < i -> nth_error (data (params self)) j = Some rowj ->
      exists m, _map_impact_eval (configured rp_arg ce ca self)
                  (j, combine (columns (params self)) rowj) = Ok m) ->
  exists self',
    calc_impact_distribution rp_arg ce ca self = (self', Raise e) /\
    aai_agg self' = aai_agg self /\ freq_curve self' = freq_curve self /\
    eai_exp self' = eai_exp self /\ at_event self' = at_event self /\
    params self' = params self.
Proof.
  intros P Hi Fi Before.
  exists (configured rp_arg ce ca self). split; [|repeat split].
  rewrite calc_impact_distribution_unfold. cbv zeta. unfold collected.
  change (pool (configured rp_arg ce ca self)) with (pool self). rewrite P.
  change (params (configured rp_arg ce ca self)) with (params self).
  rewrite (mapM_raise_at _ _ i _ e (iterrows_nth _ _ _ Hi) Fi).
  - reflexivity.
  - intros j xj L Hj. destruct (iterrows_nth_inv _ _ _ Hj) as (rowj & Hr & ->).
    now apply (Before j rowj).
Qed.

(** *** From the metric tables to the sensitivity indices *)

Lemma str_inj a b : str a = str b -> a = b.
Proof.
  unfold str. intros E.
  assert (N : forall z, NilZero.int_of_string
                          (NilZero.string_of_int (Z.to_int z))
                        = Some (Z.to_int z)).
  { intros z. apply NilZero.isi; intros Q;
      pose proof (of_to z) as O; rewrite Q in O; simpl in O; subst z;
      discriminate Q. }
  apply to_int_inj. pose proof (N a) as Na. rewrite E, N in Na.
  now injection Na.
Qed.

Lemma rp_labels_NoDup (rp_ : list Z) :
  NoDup rp_ -> NoDup (map (fun n => LStr ("rp" ++ str n)%string) rp_).
Proof.
  apply Injective_map_NoDup. intros a b E. injection E as E.
  now apply str_inj.
Qed.

Lemma range_labels_NoDup w : NoDup (map LInt (seq 0 w)).
Proof.
  apply Injective_map_NoDup; [|apply seq_NoDup]. intros a b E. congruence.
Qed.

(** [d] is the analysis of the table [df], column by column *)
Definition sensitivity_of (self : Obj) (am : Analyzer) (kw : Options)
           (df : DataFrame) (d : dict Label SensitivityIndex) : Prop :=
  _calc_metric_sensitivity self df am kw = Ok d /\
  keys d = columns df /\
  forall j c, nth_error (columns df) j = Some c ->
    exists idx, am (problem self) (Vec (column_values df j)) kw = Ok idx /\
                dict_get c d = Some idx.

Lemma metric_sensitivity_total self (am : Analyzer) kw df :
  NoDup (columns df) ->
  (forall Y, exists idx, am (problem self) Y kw = Ok idx) ->
  exists d, sensitivity_of self am kw df d.
Proof.
  intros ND Tot. unfold sensitivity_of, _calc_metric_sensitivity.
  pose proof (sensitivity_loop_spec self df am kw (columns df) [] ND
                (fun _ _ F => F)) as S.
  destruct (sensitivity_loop self df am kw (columns df) []) as [d|e].
  - destruct S as (Kd & Hin & _). exists d. repeat split; [exact Kd|].
    intros j c Hj. destruct (Hin c (nth_error_In _ _ Hj)) as (idx & A & G).
    rewrite (getitem_unique df j c ND Hj) in A. eauto.
  - destruct S as (c & _ & A). destruct (Tot (getitem_to_numpy df c)) as (idx & Q).
    congruence.
Qed.

Lemma calc_impact_sensitivity_merged
      (s : Obj) method kw (am : Analyzer) A F E T ce ca :
  df_empty (params s) = false ->
  aai_agg s = Some A -> df_empty A = false -> freq_curve s = Some F ->
  calc_eai_exp s = Some ce -> calc_at_event s = Some ca ->
  (ce = true -> eai_exp s = Some E) -> (ca = true -> at_event s = Some T) ->
  saa method = Some am ->
  (forall Y, exists idx, am (problem s) Y kw = Ok idx) ->
  NoDup (columns A) -> NoDup (columns F) ->
  NoDup (columns E) -> NoDup (columns T) ->
  exists dA dF dE dT,
    sensitivity_of s am kw A dA /\ sensitivity_of s am kw F dF /\
    sensitivity_of s am kw E dE /\ sensitivity_of s am kw T dT /\
    calc_impact_sensitivity method kw s
    = (set_sensitivity
         (Some (dict_update
                  (dict_update (dict_update (dict_update [] dA) dF)
                               (if ce then dE else []))
                  (if ca then dT else []))) s,
       Ok (dict_update
             (dict_update (dict_update (dict_update [] dA) dF)
                          (if ce then dE else []))
             (if ca then dT else []))).
Proof.
  intros Pne HA Ane HF Hce Hca HE HT Saa Tot NA NF NE NT.
  destruct (metric_sensitivity_total s am kw A NA Tot) as (dA & SA).
  destruct (metric_sensitivity_total s am kw F NF Tot) as (dF & SF).
  destruct (metric_sensitivity_total s am kw E NE Tot) as (dE & SE).
  destruct (metric_sensitivity_total s am kw T NT Tot) as (dT & ST).
  exists dA, dF, dE, dT. repeat (split; [assumption|]).
  unfold calc_impact_sensitivity, bind, get, lift, raise, ret, modify,
    update_with.
  rewrite Pne, HA. cbn [getattr rbind]. rewrite Ane, Saa.
  rewrite (proj1 SA). cbn [rbind]. rewrite HF. cbn [getattr rbind].
  rewrite (proj1 SF). cbn [rbind]. rewrite Hce, Hca. cbn [getattr].
  destruct ce, ca.
  - rewrite (HE eq_refl), (HT eq_refl). cbn [getattr rbind].
    rewrite (proj1 SE), (proj1 ST). reflexivity.
  - rewrite (HE eq_refl). cbn [getattr rbind].
    rewrite (proj1 SE). reflexivity.
  - rewrite (HT eq_refl). cbn [getattr rbind].
    rewrite (proj1 ST). reflexivity.
  - reflexivity.
Qed.

Lemma dict_get_absent {K V} `{Eqb K} (k : K) (d : dict K V) cols :
  keys d = cols -> ~ In k cols -> dict_get k d = None.
Proof. intros <- N. now apply dict_get_None. Qed.

Lemma LStr_not_in_range s w : ~ In (LStr s) (map LInt (seq 0 w)).
Proof.
  intros I. apply in_map_iff in I. destruct I as (n & Q & _). discriminate Q.
Qed.

Lemma LInt_not_in_rp_labels k (rp_ : list Z) :
  ~ In (LInt k) (map (fun n => LStr ("rp" ++ str n)%string) rp_).
Proof.
  intros I. apply in_map_iff in I. destruct I as (n & Q & _). discriminate Q.
Qed.

Lemma aai_agg_not_in_rp_labels (rp_ : list Z) :
  ~ In (LStr "aai_agg") (map (fun n => LStr ("rp" ++ str n)%string) rp_).
Proof.
  intros I. apply in_map_iff in I. destruct I as (n & Q & _). discriminate Q.
Qed.

(** X13.  From a completed impact distribution to the sensitivity
    indices.  After [calc_impact_distribution] has completed on a sample
    with at least one column and distinct return periods, a call of
    [calc_impact_sensitivity] with a registered method that does not raise
    completes, stores its result in [self.sensitivity] and returns it; the
    result holds the analysis of the [aai_agg] column and of every return
    period column.  The per-location and per-event tables both label their
    columns [0, 1, ...]: when per-event impacts were requested the entry
    [k] of the result is the analysis of per-event column [k], and the
    analysis of per-location column [k] is kept only where no per-event
    column [k] exists. *)
Theorem sensitivity_after_distribution
        rp_arg ce ca (self0 self : Obj) method kwargs (am : Analyzer) :
  (forall p, pool self0 = Some p -> map_contract p) ->
  calc_impact_distribution rp_arg ce ca self0 = (self, Ok tt) ->
  columns (params self0) <> [] ->
  NoDup (default_rp rp_arg) ->
  saa method = Some am ->
  (forall Y, exists idx, am (problem self0) Y kwargs = Ok idx) ->
  exists d A F,
    calc_impact_sensitivity method kwargs self
    = (set_sensitivity (Some d) self, Ok d) /\
    aai_agg self = Some A /\ freq_curve self = Some F /\
    (exists idx,
        am (problem self0) (Vec (column_values A 0)) kwargs = Ok idx /\
        dict_get (LStr "aai_agg") d = Some idx) /\
    (forall j n,
        nth_error (default_rp rp_arg) j = Some n ->
        exists idx,
          am (problem self0) (Vec (column_values F j)) kwargs = Ok idx /\
          dict_get (LStr ("rp" ++ str n)%string) d = Some idx) /\
    (ca = true ->
     exists T, at_event self = Some T /\
       forall k, k < length (columns T) ->
         exists idx,
           am (problem self0) (Vec (column_values T k)) kwargs = Ok idx /\
           dict_get (LInt k) d = Some idx) /\
    (ce = true ->
     exists E, eai_exp self = Some E /\
       forall k, k < length (columns E) ->
         (ca = false
          \/ forall T, at_event self = Some T -> length (columns T) <= k) ->
         exists idx,
           am (problem self0) (Vec (column_values E k)) kwargs = Ok idx /\
           dict_get (LInt k) d = Some idx).
Proof.
  intros C Run Cols NDrp Saa Tot.
  rewrite calc_impact_distribution_unfold in Run. cbv zeta in Run.
  set (cfg := configured rp_arg ce ca self0) in *.
  destruct (collected cfg) as [ms|] eqn:Col; [|discriminate].
  apply collected_mapM in Col; [|exact C].
  change (params cfg) with (params self0) in Col.
  destruct ms as [|m0 ms0] eqn:Ems; [discriminate|]. rewrite <- Ems in *.
  destruct (DataFrame_of_rows (map m_rp_curve ms) _) as [F|] eqn:DF;
    [|discriminate].
  apply DataFrame_of_rows_labelled in DF; [|rewrite Ems; discriminate].
  set (A := DataFrame_of_scalars (map m_aai_agg ms) (LStr "aai_agg")) in *.
  set (E := frame_of_rows (map optional_row (map m_eai_exp ms))) in *.
  set (T := frame_of_rows (map optional_row (map m_at_event ms))) in *.
  injection Run as <-.
  match goal with
  | |- context [calc_impact_sensitivity method kwargs ?t] => set (s := t)
  end.
  assert (Pr : problem s = problem self0) by (destruct ce, ca; reflexivity).
  assert (Pa : params s = params self0) by (destruct ce, ca; reflexivity).
  assert (HA : aai_agg s = Some A) by (destruct ce, ca; reflexivity).
  assert (HF : freq_curve s = Some F) by (destruct ce, ca; reflexivity).
  assert (Hce : calc_eai_exp s = Some ce) by (destruct ce, ca; reflexivity).
  assert (Hca : calc_at_event s = Some ca) by (destruct ce, ca; reflexivity).
  assert (HE : ce = true -> eai_exp s = Some E)
    by (intros ->; destruct ca; reflexivity).
  assert (HT : ca = true -> at_event s = Some T)
    by (intros ->; destruct ce; reflexivity).
  assert (Pne : df_empty (params s) = false).
  { rewrite Pa. unfold df_empty. apply orb_false_iff. split.
    - apply mapM_length in Col. rewrite iterrows_length in Col.
      rewrite Ems in Col. simpl in Col.
      destruct (data (params self0)); [discriminate|reflexivity].
    - destruct (columns (params self0)); [congruence|reflexivity]. }
  assert (Ane : df_empty A = false) by (unfold A; now rewrite Ems).
  assert (CF : columns F
               = map (fun n => LStr ("rp" ++ str n)%string) (default_rp rp_arg))
    by now rewrite DF.
  assert (Tot' : forall Y, exists idx, am (problem s) Y kwargs = Ok idx)
    by (now rewrite Pr).
  destruct (calc_impact_sensitivity_merged s method kwargs am A F E T ce ca
              Pne HA Ane HF Hce Hca HE HT Saa Tot')
    as (dA & dF & dE & dT & SA & SF & SE & ST & Run').
  { repeat constructor. intros []. }
  { rewrite CF. now apply rp_labels_NoDup. }
  { apply range_labels_NoDup. }
  { apply range_labels_NoDup. }
  destruct SA as (_ & KA & VA), SF as (_ & KF & VF),
           SE as (_ & KE & VE), ST as (_ & KT & VT).
  rewrite Pr in VA, VF, VE, VT.
  assert (NdA : NoDup (keys dA))
    by (rewrite KA; repeat constructor; intros []).
  assert (NdF : NoDup (keys dF))
    by (rewrite KF, CF; now apply rp_labels_NoDup).
  assert (NdE : NoDup (keys (if ce then dE else [])))
    by (destruct ce; [rewrite KE; apply range_labels_NoDup|constructor]).
  assert (NdT : NoDup (keys (if ca then dT else [])))
    by (destruct ca; [rewrite KT; apply range_labels_NoDup|constructor]).
  assert (StrE : forall l, dict_get (LStr l) (if ce then dE else []) = None).
  { intros l. destruct ce; [|reflexivity].
    apply (dict_get_absent _ _ _ KE), LStr_not_in_range. }
  assert (StrT : forall l, dict_get (LStr l) (if ca then dT else []) = None).
  { intros l. destruct ca; [|reflexivity].
    apply (dict_get_absent _ _ _ KT), LStr_not_in_range. }
  eexists. exists A, F. split; [exact Run'|].
  split; [exact HA|]. split; [exact HF|].
  split; [|split; [|split]].
  - destruct (VA 0 (LStr "aai_agg") eq_refl) as (idx & Q & G).
    exists idx. split; [exact Q|].
    rewrite !dict_get_update by assumption. rewrite StrT, StrE.
    rewrite (dict_get_absent _ _ _ KF)
      by (rewrite CF; apply aai_agg_not_in_rp_labels).
    now rewrite G.
  - intros j n Hj.
    destruct (VF j (LStr ("rp" ++ str n)%string)) as (idx & Q & G).
    { rewrite CF.
      exact (map_nth_error (fun n0 : Z => LStr ("rp" ++ str n0)%string)
                           j _ Hj). }
    exists idx. split; [exact Q|].
    rewrite !dict_get_update by assumption. rewrite StrT, StrE.
    now rewrite G.
  - intros ->. exists T. split; [now apply HT|]. intros k Lk.
    destruct (VT k (LInt k)) as (idx & Q & G).
    { simpl. simpl in Lk. rewrite length_map, length_seq in Lk.
      apply (map_nth_error LInt k). now rewrite nth_error_seq_lt. }
    exists idx. split; [exact Q|].
    rewrite dict_get_update by assumption. now rewrite G.
  - intros ->. exists E. split; [now apply HE|]. intros k Lk Free.
    destruct (VE k (LInt k)) as (idx & Q & G).
    { simpl. simpl in Lk. rewrite length_map, length_seq in Lk.
      apply (map_nth_error LInt k). now rewrite nth_error_seq_lt. }
    exists idx. split; [exact Q|].
    rewrite dict_get_update by assumption.
    replace (dict_get (LInt k) (if ca then dT else [])) with
      (@None SensitivityIndex).
    + rewrite dict_get_update by assumption. now rewrite G.
    + symmetry. destruct ca; [|reflexivity].
      destruct Free as [Q'|Free]; [discriminate|].
      specialize (Free T (HT eq_refl)).
      apply (dict_get_absent _ _ _ KT). simpl.
      simpl in Free. rewrite length_map, length_seq in Free.
      intros I. apply in_map_iff in I. destruct I as (n & [= ->] & I).
      apply in_seq in I. lia.
Qed.

(** *** Inputs of the wrong class *)

(** the inputs the constructor can turn into a role variable: a variable,
    or an object of the class of the role *)
Definition usable_as_exp (v : PyVal) : bool :=
  match v with VUncVar _ | VObj (ObjExposures _) => true | _ => false end.
Definition usable_as_impf (v : PyVal) : bool :=
  match v with VUncVar _ | VObj (ObjImpactFuncSet _) => true | _ => false end.
Definition usable_as_haz (v : PyVal) : bool :=
  match v with VUncVar _ | VObj (ObjHazard _) => true | _ => false end.

(** X14.  The constructor accepts any input for any role, but an object
    that is neither a variable nor of the class of its role (a hazard given
    as exposure, say) is stored as it is: the distributions of the analysis
    can then not be read, and every [make_sample] raises [AttributeError]
    and leaves the sample empty.  With usable inputs for all three roles
    the distributions can always be read. *)
Theorem wrong_class_input_fails_on_first_use
        (exp_unc impf_unc haz_unc : PyVal) (pool_arg : option Pool) :
  (usable_as_exp exp_unc && usable_as_impf impf_unc && usable_as_haz haz_unc
   = true ->
   exists dd,
     distr_dict (UncImpact.init exp_unc impf_unc haz_unc pool_arg) = Ok dd) /\
  (usable_as_exp exp_unc && usable_as_impf impf_unc && usable_as_haz haz_unc
   = false ->
   distr_dict (UncImpact.init exp_unc impf_unc haz_unc pool_arg)
   = Raise (AttributeError "distr_dict") /\
   forall N method kwargs (g : RandomState),
     snd (make_sample N method kwargs
            (UncImpact.init exp_unc impf_unc haz_unc pool_arg, g))
     = Raise (AttributeError "distr_dict") /\
     params (fst (fst (make_sample N method kwargs
                         (UncImpact.init exp_unc impf_unc haz_unc pool_arg, g))))
     = DataFrame_empty).
Proof.
  split.
  - destruct exp_unc as [[?|?|?]|?], impf_unc as [[?|?|?]|?],
             haz_unc as [[?|?|?]|?]; simpl; intros U; try discriminate U;
      eexists; reflexivity.
  - intros U.
    assert (D : distr_dict (UncImpact.init exp_unc impf_unc haz_unc pool_arg)
                = Raise (AttributeError "distr_dict")).
    { destruct exp_unc as [[?|?|?]|?], impf_unc as [[?|?|?]|?],
               haz_unc as [[?|?|?]|?]; simpl in U; try discriminate U;
        reflexivity. }
    split; [exact D|]. intros N method kwargs g.
    rewrite make_sample_unfold. cbv zeta. rewrite D. split; reflexivity.
Qed.

(** *** What the analysis is given *)

Lemma sensitivity_loop_frame (s1 s2 : Obj) df (am : Analyzer) kw todo acc :
  problem s1 = problem s2 ->
  sensitivity_loop s1 df am kw todo acc = sensitivity_loop s2 df am kw todo acc.
Proof.
  intros P. revert acc. induction todo as [|c todo IH]; intros acc; simpl.
  - reflexivity.
  - rewrite P. destruct (am (problem s2) (getitem_to_numpy df c) kw);
      [apply IH|reflexivity].
Qed.

(** X15.  The values of the sample never reach the analysis method: it
    is called with the problem descriptor and the cells of a metric column
    only, and the sample is looked at for emptiness alone.  Replacing a
    non-empty sample by any other non-empty table changes neither the
    outcome nor the stored result of [calc_impact_sensitivity]. *)
Theorem sensitivity_ignores_sample_values
        (s : Obj) (df : DataFrame) method kwargs :
  df_empty (params s) = false -> df_empty df = false ->
  calc_impact_sensitivity method kwargs (set_params df s)
  = (set_params df (fst (calc_impact_sensitivity method kwargs s)),
     snd (calc_impact_sensitivity method kwargs s)).
Proof.
  intros Ps Pd.
  assert (L : forall t (am : Analyzer),
             _calc_metric_sensitivity (set_params df s) t am kwargs
             = _calc_metric_sensitivity s t am kwargs).
  { intros t am. unfold _calc_metric_sensitivity.
    now apply sensitivity_loop_frame. }
  unfold calc_impact_sensitivity, bind, get, lift, raise, ret, modify,
    update_with.
  change (params (set_params df s)) with df. rewrite Ps, Pd.
  change (aai_agg (set_params df s)) with (aai_agg s).
  change (freq_curve (set_params df s)) with (freq_curve s).
  change (eai_exp (set_params df s)) with (eai_exp s).
  change (at_event (set_params df s)) with (at_event s).
  change (calc_eai_exp (set_params df s)) with (calc_eai_exp s).
  change (calc_at_event (set_params df s)) with (calc_at_event s).
  destruct (aai_agg s) as [A|]; [|reflexivity]. cbn [getattr rbind].
  destruct (df_empty A); [reflexivity|].
  destruct (saa method) as [am|]; [|reflexivity].
  rewrite !L.
  destruct (_calc_metric_sensitivity s A am kwargs) as [dA|]; [|reflexivity].
  cbn [rbind].
  destruct (freq_curve s) as [F|]; [|reflexivity]. cbn [getattr rbind].
  rewrite !L.
  destruct (_calc_metric_sensitivity s F am kwargs) as [dF|]; [|reflexivity].
  cbn [rbind].
  destruct (calc_eai_exp s) as [[|]|]; [| |reflexivity]; cbn [getattr].
  - destruct (eai_exp s) as [E|]; [|reflexivity]. cbn [getattr rbind].
    rewrite !L.
    destruct (_calc_metric_sensitivity s E am kwargs) as [dE|];
      [|reflexivity].
    cbn [rbind].
    destruct (calc_at_event s) as [[|]|]; [| |reflexivity]; cbn [getattr];
      [|reflexivity].
    destruct (at_event s) as [T|]; [|reflexivity]. cbn [getattr rbind].
    rewrite !L.
    destruct (_calc_metric_sensitivity s T am kwargs); reflexivity.
  - destruct (calc_at_event s) as [[|]|]; [| |reflexivity]; cbn [getattr];
      [|reflexivity].
    destruct (at_event s) as [T|]; [|reflexivity]. cbn [getattr rbind].
    rewrite !L.
    destruct (_calc_metric_sensitivity s T am kwargs); reflexivity.
Qed.

End UncertaintyMore.

(** ** The further properties on concrete objects *)

Module demo_files.
Import disc_rates disc_rates_io.

(** two files with an overlapping year, read by an in-order map *)
Definition get_file_names (files : StrOrList) : Result (list string) :=
  match files with
  | OneStr s => Ok [s]
  | StrList l => Ok l
  end.

Definition to_str_list (n : nat) (values : StrOrList) (name : string)
  : Result (list string) :=
  match values with
  | OneStr s => Ok (repeat s n)
  | StrList l =>
      if Nat.eqb (length l) n then Ok l
      else Raise (ValueError name)
  end.

Definition read_source (new_disc : @DiscRates Z string)
           (file_name description : string) (var_names : string)
  : Result (@DiscRates Z string) :=
  if String.eqb file_name "a.xlsx" then
    Ok {| tag := description; years := [2000; 2001]%Z; rates := [2; 3]%Z |}
  else if String.eqb file_name "b.xlsx" then
    Ok {| tag := description; years := [2001; 2002]%Z; rates := [7; 9]%Z |}
  else Raise (ValueError "unreadable file").

Definition Pool_map
           (f : string * string * string -> Result (@DiscRates Z string))
           (xs : list (string * string * string))
  : Result (list (@DiscRates Z string)) := mapM f xs.

Definition old_rates : @DiscRates Z string :=
  {| tag := "old"; years := [1990]%Z; rates := [1]%Z |}.

End demo_files.

Module demo2.
Import uncertainty.
#[local] Existing Instance demo.D.

(** a hazard variable that shares the label [a] with [demo.exp_var] *)
Definition haz_var : UncVar.t :=
  UncVar.init
    (demo.py_function ["a"; "h"] []
       (fun b => Ok (ObjHazard (demo.arg "a" b + demo.arg "h" b)%Z)))
    [("a", {| ppf := fun x => (x + 1)%Z |});
     ("h", {| ppf := fun x => (2 * x)%Z |})].

(** an exposure variable that declares only one of the two parameters its
    generator requires *)
Definition short_exp_var : UncVar.t :=
  UncVar.init demo.exp_gen [("a", {| ppf := fun x => x |})].

(** the collaborators of [demo], with per-event impacts that differ from
    the per-location ones *)
Definition L2 : Libraries :=
  {| Impact_calc := @Impact_calc demo.D demo.L;
     Impact_aai_agg := @Impact_aai_agg demo.D demo.L;
     Impact_freq_curve := @Impact_freq_curve demo.D demo.L;
     Impact_eai_exp := @Impact_eai_exp demo.D demo.L;
     Impact_at_event := fun i => [(2 * i)%Z];
     sas := @sas demo.D demo.L;
     saa := @saa demo.D demo.L |}.

#[local] Existing Instance L2.

(** [demo.unc1] after
    [calc_impact_distribution(rp=[5, 10], calc_eai_exp=True,
    calc_at_event=True)] *)
Definition unc3 : Uncertainty.Obj :=
  fst (UncImpact.calc_impact_distribution (Some [5; 10]%Z) true true
                                          demo.unc1).

(** an analysis whose exposure variable is [short_exp_var], sampled *)
Definition short0 : Uncertainty.Obj :=
  UncImpact.init (VUncVar short_exp_var) (VObj (ObjImpactFuncSet 10%Z))
                 (VObj (ObjHazard 20%Z)) None.

Definition short1 : Uncertainty.Obj :=
  fst (fst (Uncertainty.make_sample 2%Z "saltelli" [] (short0, 0%Z))).

End demo2.

Section MoreInstances.
Import uncertainty uncertainty.Uncertainty uncertainty.UncImpact.
Import disc_rates disc_rates_io.
#[local] Existing Instance demo.D.
#[local] Existing Instance demo2.L2.
Local Open Scope Z_scope.

Lemma append_keeps_consistency_witness :
  check rates_2000 = Ok tt /\
  exists self', append String.append rates_2001 rates_2000 = (self', Ok tt) /\
                check self' = Ok tt.
Proof.
  split; [reflexivity|].
  apply (proj1 (append_keeps_consistency String.append rates_2000 rates_2001
                  eq_refl)).
  reflexivity.
Defined.

Lemma append_years_are_the_union_witness :
  check rates_2000 = Ok tt /\ check rates_2001 = Ok tt /\
  exists self',
    append String.append rates_2001 rates_2000 = (self', Ok tt) /\
    In 2002 (years self') /\ NoDup (years self').
Proof.
  split; [reflexivity|]. split; [reflexivity|].
  destruct (append_years_are_the_union String.append rates_2000 rates_2001)
    as (self' & E & Mem & _ & ND); [reflexivity|reflexivity|].
  exists self'. split; [exact E|]. split.
  - apply Mem. right. simpl. auto.
  - apply ND; repeat constructor; simpl; intuition discriminate.
Defined.


Lemma demo_pool_map_in_order : in_order_map demo_files.Pool_map.
Proof.
  split.
  - intros f xs ys E. exact E.
  - intros f xs e E. exists e. exact E.
Defined.

Lemma read_builds_consistent_union_witness :
  in_order_map demo_files.Pool_map /\
  exists self',
    read String.append "" demo_files.get_file_names demo_files.to_str_list
         demo_files.to_str_list demo_files.read_source demo_files.Pool_map
         (StrList ["a.xlsx"; "b.xlsx"]) (OneStr "demo") (OneStr "names")
         demo_files.old_rates = (self', Ok tt) /\
    check self' = Ok tt /\
    (In 2002 (years self') /\ ~ In 1990 (years self')) /\
    NoDup (years self').
Proof.
  split; [exact demo_pool_map_in_order|].
  destruct (read_builds_consistent_union
              String.append "" demo_files.get_file_names
              demo_files.to_str_list demo_files.to_str_list
              demo_files.read_source demo_files.Pool_map
              (StrList ["a.xlsx"; "b.xlsx"]) (OneStr "demo") (OneStr "names")
              demo_files.old_rates
              ["a.xlsx"; "b.xlsx"] ["demo"; "demo"] ["names"; "names"]
              [ {| tag := "demo"; years := [2000; 2001]; rates := [2; 3] |};
                {| tag := "demo"; years := [2001; 2002]; rates := [7; 9] |} ])
    as (self' & E & C & Mem & ND);
    [exact demo_pool_map_in_order|reflexivity|reflexivity|reflexivity
    |reflexivity|repeat constructor|].
  exists self'. split; [exact E|]. split; [exact C|]. split; [split|].
  - apply Mem. eexists. split; [right; left; reflexivity|]. simpl. auto.
  - intros I. apply Mem in I. destruct I as (d & [<-|[<-|[]]] & I);
      simpl in I; intuition discriminate.
  - apply ND. repeat constructor; simpl; intuition discriminate.
Defined.

Lemma read_failure_states_witness :
  in_order_map demo_files.Pool_map /\
  exists e',
    read String.append "" demo_files.get_file_names demo_files.to_str_list
         demo_files.to_str_list demo_files.read_source demo_files.Pool_map
         (StrList ["a.xlsx"; "missing.xlsx"]) (OneStr "demo") (OneStr "names")
         demo_files.old_rates
    = (cleared "", Raise e').
Proof.
  split; [exact demo_pool_map_in_order|].
  apply (proj2 (read_failure_states
                  String.append "" demo_files.get_file_names
                  demo_files.to_str_list demo_files.to_str_list
                  demo_files.read_source demo_files.Pool_map
                  (StrList ["a.xlsx"; "missing.xlsx"]) (OneStr "demo")
                  (OneStr "names") demo_files.old_rates)
               ["a.xlsx"; "missing.xlsx"] ["demo"; "demo"] ["names"; "names"]
               (ValueError "unreadable file"));
    [exact demo_pool_map_in_order|reflexivity..].
Defined.

Lemma distr_dict_merges_in_role_order_witness :
  NoDup (keys (UncVar.distr_dict demo.exp_var)) /\
  NoDup (keys (UncVar.distr_dict demo.impf_var)) /\
  NoDup (keys (UncVar.distr_dict demo2.haz_var)) /\
  exists dd,
    distr_dict (UncImpact.init (VUncVar demo.exp_var) (VUncVar demo.impf_var)
                               (VUncVar demo2.haz_var) None) = Ok dd /\
    keys dd = ["a"; "b"; "G"; "h"]%string /\
    exists distr, dict_get "a"%string dd = Some distr /\ ppf distr 5 = 6.
Proof.
  assert (N1 : NoDup (keys (UncVar.distr_dict demo.exp_var)))
    by (repeat constructor; simpl; intuition discriminate).
  assert (N2 : NoDup (keys (UncVar.distr_dict demo.impf_var)))
    by (repeat constructor; simpl; intuition discriminate).
  assert (N3 : NoDup (keys (UncVar.distr_dict demo2.haz_var)))
    by (repeat constructor; simpl; intuition discriminate).
  split; [exact N1|]. split; [exact N2|]. split; [exact N3|].
  destruct (distr_dict_merges_in_role_order demo.exp_var demo.impf_var
              demo2.haz_var None N1 N2 N3) as (dd & E & _ & _ & K & G).
  exists dd. split; [exact E|]. split; [exact K|].
  eexists. split; [rewrite G; reflexivity|reflexivity].
Defined.

Lemma make_sample_leaves_results_alone_witness :
  snd (make_sample 2 "no_such_design" [] (demo2.unc3, 0)) <> Ok tt /\
  params (fst (fst (make_sample 2 "no_such_design" [] (demo2.unc3, 0))))
  = params demo2.unc3.
Proof.
  assert (F : snd (make_sample 2 "no_such_design" [] (demo2.unc3, 0))
              <> Ok tt) by discriminate.
  split; [exact F|].
  apply (make_sample_leaves_results_alone 2 "no_such_design" [] demo2.unc3 0).
  exact F.
Defined.

Lemma demo_inputs_as_constructed :
  as_constructed demo.exp_var /\
  as_constructed (UncVar.init (lambda_const (@ObjHazard demo.D 20)) []) /\
  as_constructed (UncVar.init (lambda_const (@ObjImpactFuncSet demo.D 10)) []).
Proof.
  split; [|split]; (split; [reflexivity|]).
  - repeat constructor; simpl; intuition discriminate.
  - constructor.
  - constructor.
Defined.

Lemma made_sample_rows_reach_the_generators_witness :
  make_sample 2 "saltelli" [] (demo.unc0, 0) = ((demo.unc1, 0), Ok tt) /\
  role_var demo.unc0 "exp" = Ok demo.exp_var /\
  as_constructed demo.exp_var /\
  nth_error (data (params demo.unc1)) 1 = Some [1; 10] /\
  exists exp_params,
    slice_of (combine (columns (params demo.unc1)) [1; 10]) demo.exp_var
             exp_params /\
    keys exp_params = ["a"; "b"]%string.
Proof.
  split; [reflexivity|]. split; [reflexivity|].
  split; [exact (proj1 demo_inputs_as_constructed)|]. split; [reflexivity|].
  destruct (made_sample_rows_reach_the_generators
              2 "saltelli" [] demo.unc0 demo.unc1 0 0
              demo.exp_var
              (UncVar.init (lambda_const (@ObjHazard demo.D 20)) [])
              (UncVar.init (lambda_const (@ObjImpactFuncSet demo.D 10)) [])
              1%nat [1; 10])
    as (pe & ph & pi & Se & _);
    [reflexivity|reflexivity|reflexivity|reflexivity
    |exact (proj1 demo_inputs_as_constructed)
    |exact (proj1 (proj2 demo_inputs_as_constructed))
    |exact (proj2 (proj2 demo_inputs_as_constructed))
    |reflexivity|].
  exists pe. split; [exact Se|]. exact (proj1 (proj2 Se)).
Defined.


Lemma calc_impact_distribution_completes_witness :
  (forall p, pool demo.unc1 = Some p -> map_contract p) /\
  n_runs demo.unc1 <> 0%nat /\
  exists self',
    calc_impact_distribution (Some [5; 10]) true true demo.unc1
    = (self', Ok tt).
Proof.
  assert (C : forall p, pool demo.unc1 = Some p -> map_contract p)
    by (intros p E; discriminate E).
  split; [exact C|]. split; [discriminate|].
  apply (calc_impact_distribution_completes (Some [5; 10]) true true
           demo.unc1 C); [discriminate|].
  intros i row Hi.
  assert (Ev : exists m,
             _map_impact_eval (configured (Some [5; 10]) true true demo.unc1)
               (i, combine (columns (params demo.unc1)) row) = Ok m).
  { destruct i as [|[|i]]; simpl in Hi.
    - injection Hi as <-. eexists. reflexivity.
    - injection Hi as <-. eexists. reflexivity.
    - destruct i; discriminate Hi. }
  destruct Ev as (m & Ev).
  destruct (map_impact_eval_ok _ _ _ Ev) as (imp & _ & _ & _ & Imp & _).
  exists imp. split; [exact Imp|]. apply length_map.
Defined.

Lemma first_failing_row_stops_the_run_witness :
  pool demo2.short1 = None /\
  nth_error (data (params demo2.short1)) 0 = Some [0] /\
  _map_impact_eval (configured None false false demo2.short1)
    (0%nat, combine (columns (params demo2.short1)) [0])
  = Raise (TypeError "missing required argument") /\
  exists self',
    calc_impact_distribution None false false demo2.short1
    = (self', Raise (TypeError "missing required argument")) /\
    aai_agg self' = None.
Proof.
  split; [reflexivity|]. split; [reflexivity|]. split; [reflexivity|].
  destruct (first_failing_row_stops_the_run None false false demo2.short1
              0%nat [0] (TypeError "missing required argument"))
    as (self' & E & A & _);
    [reflexivity|reflexivity|reflexivity|intros j rowj L; inversion L|].
  exists self'. split; [exact E|]. rewrite A. reflexivity.
Defined.

Lemma sensitivity_after_distribution_witness :
  (forall p, pool demo.unc1 = Some p -> map_contract p) /\
  calc_impact_distribution (Some [5; 10]) true true demo.unc1
  = (demo2.unc3, Ok tt) /\
  columns (params demo.unc1) <> [] /\
  NoDup [5; 10] /\
  saa "sobol" = Some demo.sobol_analyze /\
  (forall Y, exists idx, demo.sobol_analyze (problem demo.unc1) Y [] = Ok idx) /\
  exists d,
    calc_impact_sensitivity "sobol" [] demo2.unc3
    = (set_sensitivity (Some d) demo2.unc3, Ok d) /\
    dict_get (LInt 0) d
    = Some [("S1"%string, Vec [-1]); ("ST"%string, Vec [70; 82])].
Proof.
  assert (C : forall p, pool demo.unc1 = Some p -> map_contract p)
    by (intros p E; discriminate E).
  assert (ND : NoDup [5; 10])
    by (repeat constructor; simpl; intuition discriminate).
  assert (Tot : forall Y, exists idx,
               demo.sobol_analyze (problem demo.unc1) Y [] = Ok idx)
    by (intros Y; eexists; reflexivity).
  assert (Run0 : calc_impact_distribution (Some [5; 10]) true true demo.unc1
                 = (demo2.unc3, Ok tt)) by reflexivity.
  split; [exact C|]. split; [exact Run0|]. split; [discriminate|].
  split; [exact ND|]. split; [reflexivity|]. split; [exact Tot|].
  destruct (sensitivity_after_distribution (Some [5; 10]) true true
              demo.unc1 demo2.unc3 "sobol" [] demo.sobol_analyze
              C Run0) as (d & A & F & Run & _ & _ & _ & _ & HT & _);
    [discriminate|exact ND|reflexivity|exact Tot|].
  exists d. split; [exact Run|].
  destruct (HT eq_refl) as (T & ET & VT).
  injection ET as <-.
  destruct (VT 0%nat) as (idx & Q & G); [simpl; lia|].
  injection Q as <-. exact G.
Defined.

Lemma wrong_class_input_fails_on_first_use_witness :
  usable_as_exp (VObj (@ObjHazard demo.D 1))
  && usable_as_impf (VObj (@ObjImpactFuncSet demo.D 10))
  && usable_as_haz (VObj (@ObjHazard demo.D 20)) = false /\
  snd (make_sample 2 "saltelli" []
         (UncImpact.init (VObj (@ObjHazard demo.D 1))
                         (VObj (@ObjImpactFuncSet demo.D 10))
                         (VObj (@ObjHazard demo.D 20)) None, 0))
  = Raise (AttributeError "distr_dict").
Proof.
  split; [reflexivity|].
  apply (proj2 (proj2 (wrong_class_input_fails_on_first_use
                         (VObj (@ObjHazard demo.D 1))
                         (VObj (@ObjImpactFuncSet demo.D 10))
                         (VObj (@ObjHazard demo.D 20)) None) eq_refl)
               2 "saltelli" [] 0).
Defined.

Lemma sensitivity_ignores_sample_values_witness :
  df_empty (params demo2.unc3) = false /\
  df_empty (@Build_DataFrame demo.D [LStr "z"] [[9]]) = false /\
  snd (calc_impact_sensitivity "sobol" []
         (set_params (@Build_DataFrame demo.D [LStr "z"] [[9]]) demo2.unc3))
  = snd (calc_impact_sensitivity "sobol" [] demo2.unc3).
Proof.
  split; [reflexivity|]. split; [reflexivity|].
  rewrite (sensitivity_ignores_sample_values demo2.unc3
             (@Build_DataFrame demo.D [LStr "z"] [[9]]) "sobol" []
             eq_refl eq_refl).
  reflexivity.
Defined.

End MoreInstances.
